(** * parse.py: decoding, classification and address formatting of mailing records

    A shallow embedding of [src/parse.py] (Python 2).  Byte strings are
    [string]; a record (a Python list of field values) is a [list string];
    a list that the program mutates in place and shares between containers
    lives in a store and is named by its position there; Python exceptions
    are the [Err] branch of [result]. *)

From Stdlib Require Import Ascii String NArith Permutation Sorted.
From stdpp Require Import gmap strings list fin_maps pretty.

(** ** Python values and exceptions *)

(** The exceptions the modelled fragment can raise. *)
Inductive exn : Type :=
| IndexError
| KeyError (key : string)
| ValueError
| UnboundLocalError
| TypeError
| StopIteration
| StructError
| UnicodeEncodeError.

Inductive result (A : Type) : Type :=
| Ok (a : A)
| Err (e : exn).
Arguments Ok {A} a.
Arguments Err {A} e.

(** Sequencing: the first exception raised ends the computation. *)
#[global] Instance result_bind : MBind result :=
  λ A B f m, match m with Ok a => f a | Err e => Err e end.
#[global] Instance result_ret : MRet result := λ A a, Ok a.

Definition is_Ok {A : Type} (m : result A) : bool :=
  match m with Ok _ => true | Err _ => false end.

(** A value of a list that mixes integers and strings
    ([field_indxs] holds column numbers and the marker ['']). *)
Inductive pyval : Type :=
| PyInt (z : Z)
| PyStr (s : string).

(** [a == b] on such values: an integer never equals a string. *)
Definition py_eq (a b : pyval) : bool :=
  match a, b with
  | PyInt x, PyInt y => Z.eqb x y
  | PyStr x, PyStr y => String.eqb x y
  | _, _ => false
  end.

(** ** Byte strings *)

Module Str.

Definition nl : ascii := "010"%char.

Fixpoint take (n : nat) (s : string) : string :=
  match n, s with
  | S n', String c s' => String c (take n' s')
  | _, _ => ""
  end.

Fixpoint drop (n : nat) (s : string) : string :=
  match n, s with
  | S n', String _ s' => drop n' s'
  | _, _ => s
  end.

(** [c in s] for a single character. *)
Fixpoint mem (c : ascii) (s : string) : bool :=
  match s with
  | EmptyString => false
  | String d s' => Ascii.eqb c d || mem c s'
  end.

(** [sub in s]: [sub] occurs somewhere in [s]. *)
Fixpoint contains (sub s : string) : bool :=
  String.prefix sub s ||
  match s with
  | EmptyString => false
  | String _ s' => contains sub s'
  end.

Definition is_upper (c : ascii) : bool :=
  (65 <=? nat_of_ascii c)%nat && (nat_of_ascii c <=? 90)%nat.
Definition is_lower (c : ascii) : bool :=
  (97 <=? nat_of_ascii c)%nat && (nat_of_ascii c <=? 122)%nat.
Definition is_digit (c : ascii) : bool :=
  (48 <=? nat_of_ascii c)%nat && (nat_of_ascii c <=? 57)%nat.

Definition to_lower (c : ascii) : ascii :=
  if is_upper c then ascii_of_nat (nat_of_ascii c + 32) else c.
Definition to_upper (c : ascii) : ascii :=
  if is_lower c then ascii_of_nat (nat_of_ascii c - 32) else c.

(** [s.upper()] on a byte string. *)
Fixpoint upper (s : string) : string :=
  match s with
  | EmptyString => EmptyString
  | String c s' => String (to_upper c) (upper s')
  end.

(** The characters [str.split()] and [\s] treat as white space. *)
Definition is_space (c : ascii) : bool :=
  match nat_of_ascii c with
  | 9 | 10 | 11 | 12 | 13 | 32 => true
  | _ => false
  end.

(** [s.split()]: the maximal runs of non-blank characters, in order.
    [cur] is the run being read, reversed. *)
Fixpoint split_aux (cur : list ascii) (s : string) : list string :=
  let flush := match cur with
               | [] => []
               | _ => [string_of_list_ascii (rev cur)]
               end in
  match s with
  | EmptyString => flush
  | String c s' =>
      if is_space c then flush ++ split_aux [] s'
      else split_aux (c :: cur) s'
  end.
Definition split (s : string) : list string := split_aux [] s.

(** [sep.join(parts)]. *)
Fixpoint join (sep : string) (parts : list string) : string :=
  match parts with
  | [] => ""
  | [p] => p
  | p :: rest => p +:+ sep +:+ join sep rest
  end.

(** [" ".join(s.split())]: runs of white space become one blank and the
    ends are trimmed. *)
Definition squeeze (s : string) : string := join " " (split s).

(** [a < b] on byte strings: lexicographic on the byte values. *)
Fixpoint ltb (a b : string) : bool :=
  match a, b with
  | _, EmptyString => false
  | EmptyString, String _ _ => true
  | String x a', String y b' =>
      if (nat_of_ascii x <? nat_of_ascii y)%nat then true
      else if (nat_of_ascii y <? nat_of_ascii x)%nat then false
      else ltb a' b'
  end.

End Str.

(** ** Regular expressions

    The fragment of Python's [re] the program's patterns are written in:
    literals, [.], classes [[a-z]], [\s] [\d] [\w], the assertions [\b] [^]
    [$], groups, alternation and the greedy quantifiers [? * + {m,n}].
    The matcher tries alternatives in the order of Python's backtracking
    engine, so that the first match it finds is the one [re] reports. *)

Module Re.

Inductive re : Type :=
| Eps
| Lit (c : ascii)
| AnyCh
| InSet (ranges : list (ascii * ascii))
| SpaceCh
| DigitCh
| WordCh
| Boundary
| AtStart
| AtEnd
| Seq (r1 r2 : re)
| Alt (r1 r2 : re)
| Star (r : re)
| Never.

Definition seq (r1 r2 : re) : re :=
  match r2 with
  | Eps => r1
  | _ => Seq r1 r2
  end.

(** Greedy [r?], [r+] and [r{lo,hi}] in terms of the constructors. *)
Definition Opt (r : re) : re := Alt r Eps.
Definition Plus (r : re) : re := Seq r (Star r).
Fixpoint upto (n : nat) (r : re) : re :=
  match n with
  | O => Eps
  | S n' => Opt (seq r (upto n' r))
  end.
Fixpoint Rep (lo hi : nat) (r : re) : re :=
  match lo with
  | O => upto hi r
  | S lo' => Seq r (Rep lo' (hi - 1) r)
  end.

(** *** Reading a pattern *)

Definition digit_val (c : ascii) : option nat :=
  if Str.is_digit c then Some (nat_of_ascii c - 48) else None.

(** The body of a class, after the opening bracket. *)
Fixpoint parse_class (s : string) (acc : list (ascii * ascii))
  : option (re * string) :=
  match s with
  | EmptyString => None
  | String "]" s' => Some (InSet (rev acc), s')
  | String "\" _ => None
  | String a (String "-" (String b s')) =>
      if Ascii.eqb b "]" then None else parse_class s' ((a, b) :: acc)
  | String a s' => parse_class s' ((a, a) :: acc)
  end.

(** A quantifier after the atom [r], if there is one. *)
Definition parse_quant (r : re) (s : string) : re * string :=
  match s with
  | String "?" s' => (Opt r, s')
  | String "*" s' => (Star r, s')
  | String "+" s' => (Plus r, s')
  | String "{" (String m (String "," (String n (String "}" s')))) =>
      match digit_val m, digit_val n with
      | Some lo, Some hi => (Rep lo hi r, s')
      | _, _ => (r, s)
      end
  | _ => (r, s)
  end.

Definition parse_escape (c : ascii) : option re :=
  match c with
  | "b" => Some Boundary
  | "s" => Some SpaceCh
  | "d" => Some DigitCh
  | "w" => Some WordCh
  | _ => if Str.is_upper c || Str.is_lower c || Str.is_digit c then None
         else Some (Lit c)
  end%char.

Fixpoint parse_alt (fuel : nat) (s : string) : option (re * string) :=
  match fuel with
  | O => None
  | S fuel' =>
      match parse_seq fuel' s with
      | Some (r1, String "|" s1) =>
          match parse_alt fuel' s1 with
          | Some (r2, s2) => Some (Alt r1 r2, s2)
          | None => None
          end
      | other => other
      end
  end
with parse_seq (fuel : nat) (s : string) : option (re * string) :=
  match fuel with
  | O => None
  | S fuel' =>
      match s with
      | EmptyString => Some (Eps, s)
      | String "|" _ => Some (Eps, s)
      | String ")" _ => Some (Eps, s)
      | _ =>
          match parse_atom fuel' s with
          | Some (a, s1) =>
              let '(q, s2) := parse_quant a s1 in
              match parse_seq fuel' s2 with
              | Some (r, s3) => Some (seq q r, s3)
              | None => None
              end
          | None => None
          end
      end
  end
with parse_atom (fuel : nat) (s : string) : option (re * string) :=
  match fuel with
  | O => None
  | S fuel' =>
      match s with
      | EmptyString => None
      | String "(" s1 =>
          match parse_alt fuel' s1 with
          | Some (r, String ")" s2) => Some (r, s2)
          | _ => None
          end
      | String "[" s1 => parse_class s1 []
      | String "\" (String c s1) =>
          match parse_escape c with
          | Some r => Some (r, s1)
          | None => None
          end
      | String "\" EmptyString => None
      | String "." s1 => Some (AnyCh, s1)
      | String "^" s1 => Some (AtStart, s1)
      | String "$" s1 => Some (AtEnd, s1)
      | String "?" _ | String "*" _ | String "+" _ | String "{" _
      | String "}" _ | String "]" _ => None
      | String c s1 => Some (Lit c, s1)
      end
  end.

Definition parse (s : string) : option re :=
  match parse_alt (3 * String.length s + 3) s with
  | Some (r, EmptyString) => Some r
  | _ => None
  end.

(** A compiled pattern: the expression and the [IGNORECASE] flag.  A
    pattern the reader rejects never matches; [re.compile] would have
    raised when the module was loaded. *)
Record pattern : Type := Pattern { expr : re; ignorecase : bool }.

Definition compile (src : string) (ic : bool) : pattern :=
  Pattern (default Never (parse src)) ic.

(** *** Matching *)

Definition is_word (c : ascii) : bool :=
  Str.is_upper c || Str.is_lower c || Str.is_digit c || Ascii.eqb c "_".

Definition word_opt (c : option ascii) : bool :=
  match c with Some x => is_word x | None => false end.

Definition head (s : string) : option ascii :=
  match s with String c _ => Some c | EmptyString => None end.

Definition fold_case (ic : bool) (c : ascii) : ascii :=
  if ic then Str.to_lower c else c.

Definition in_range (ic : bool) (x : ascii) (r : ascii * ascii) : bool :=
  (nat_of_ascii (fold_case ic (fst r)) <=? nat_of_ascii (fold_case ic x))%nat
  && (nat_of_ascii (fold_case ic x) <=? nat_of_ascii (fold_case ic (snd r)))%nat.

(** Does the single-character expression [r] accept [x]? *)
Definition accepts (ic : bool) (r : re) (x : ascii) : bool :=
  match r with
  | Lit c => Ascii.eqb (fold_case ic c) (fold_case ic x)
  | AnyCh => negb (Ascii.eqb x Str.nl)
  | InSet rs => existsb (in_range ic x) rs
  | SpaceCh => Str.is_space x
  | DigitCh => Str.is_digit x
  | WordCh => is_word x
  | _ => false
  end.

(** [run ic r prev s k]: match [r] at a position whose preceding
    character is [prev] and whose remaining text is [s], then continue
    with [k]; the result is the text left after the whole match. *)
Fixpoint run (ic : bool) (r : re) (prev : option ascii) (s : string)
    (k : option ascii → string → option string) {struct r} : option string :=
  match r with
  | Eps => k prev s
  | Never => None
  | Lit _ | AnyCh | InSet _ | SpaceCh | DigitCh | WordCh =>
      match s with
      | String x s' => if accepts ic r x then k (Some x) s' else None
      | EmptyString => None
      end
  | Boundary =>
      if xorb (word_opt prev) (word_opt (head s)) then k prev s else None
  | AtStart =>
      match prev with None => k prev s | Some _ => None end
  | AtEnd =>
      match s with
      | EmptyString => k prev s
      | String x EmptyString => if Ascii.eqb x Str.nl then k prev s else None
      | _ => None
      end
  | Seq r1 r2 => run ic r1 prev s (fun p' s' => run ic r2 p' s' k)
  | Alt r1 r2 =>
      match run ic r1 prev s k with
      | Some out => Some out
      | None => run ic r2 prev s k
      end
  | Star r1 =>
      (fix loop (n : nat) (prev : option ascii) (s : string) : option string :=
         match n with
         | O => k prev s
         | S n' =>
             match run ic r1 prev s
                     (fun p' s' =>
                        if (String.length s' <? String.length s)%nat
                        then loop n' p' s' else None) with
             | Some out => Some out
             | None => k prev s
             end
         end) (String.length s) prev s
  end.

Definition finish : option ascii → string → option string :=
  fun _ rest => Some rest.

(** [pattern.match(s)]: a match starting at the first character;
    the result is [group(0)], the text matched. *)
Definition match_ (p : pattern) (s : string) : option string :=
  match run (ignorecase p) (expr p) None s finish with
  | Some rest => Some (Str.take (String.length s - String.length rest) s)
  | None => None
  end.

Fixpoint search_from (ic : bool) (r : re) (prev : option ascii) (s : string)
  : bool :=
  match run ic r prev s finish with
  | Some _ => true
  | None =>
      match s with
      | EmptyString => false
      | String c s' => search_from ic r (Some c) s'
      end
  end.

(** [re.search(p, s)] as a truth value: a match starting anywhere. *)
Definition search (p : pattern) (s : string) : bool :=
  search_from (ignorecase p) (expr p) None s.

Definition matches (p : pattern) (s : string) : bool :=
  bool_decide (is_Some (match_ p s)).

End Re.

(** ** Lists as Python uses them *)

(** [l[i]] for an index that is not negative. *)
Definition py_get {A : Type} (l : list A) (i : nat) : result A :=
  match l !! i with
  | Some x => Ok x
  | None => Err IndexError
  end.

(** [l[z]] for any integer: a negative index counts from the end. *)
Definition py_item {A : Type} (l : list A) (z : Z) : result A :=
  if bool_decide (0 ≤ z)%Z then py_get l (Z.to_nat z)
  else if bool_decide (0 ≤ Z.of_nat (length l) + z)%Z
       then py_get l (Z.to_nat (Z.of_nat (length l) + z))
       else Err IndexError.

(** [l[:z]]: a negative bound counts from the end; a slice never raises. *)
Definition py_upto {A : Type} (z : Z) (l : list A) : list A :=
  if bool_decide (0 ≤ z)%Z then take (Z.to_nat z) l
  else take (Z.to_nat (Z.of_nat (length l) + z)) l.

(** [l[a:b]] for bounds that are not negative. *)
Definition py_slice {A : Type} (a b : nat) (l : list A) : list A :=
  take (b - a) (drop a l).

(** [l[i] = x] for an index that is not negative. *)
Definition py_set {A : Type} (l : list A) (i : nat) (x : A) : result (list A) :=
  if bool_decide (i < length l) then Ok (<[i := x]> l) else Err IndexError.

(** [l.insert(i, x)] for an index that is not negative: [x] goes in front of
    the element now at [i], or at the end when there is none. *)
Definition py_insert {A : Type} (i : nat) (x : A) (l : list A) : list A :=
  take i l ++ x :: drop i l.

(** [l.index(x)]: the first position holding [x]. *)
Fixpoint py_index (x : string) (l : list string) : result nat :=
  match l with
  | [] => Err ValueError
  | y :: l' => if String.eqb y x then Ok 0 else i ← py_index x l'; Ok (S i)
  end.

(** [l.count(x)]. *)
Definition py_count (x : string) (l : list string) : Z :=
  Z.of_nat (length (filter (λ y, y = x) l)).

(** [d[k]] on a dictionary. *)
Definition dict_get (d : gmap string string) (k : string) : result string :=
  match d !! k with
  | Some v => Ok v
  | None => Err (KeyError k)
  end.

(** A dictionary display: a key written twice keeps the later value. *)
Definition dict_of (kvs : list (string * string)) : gmap string string :=
  foldl (λ d kv, <[kv.1 := kv.2]> d) ∅ kvs.

(** ** The canonical schema *)

(** [create_data_fields]: the canonical field names, each with the pattern
    that finds its column in a spreadsheet header. *)
Definition create_data_fields : list (string * Re.pattern) :=
  let pat src := Re.compile src false in
  [ ("FileTransmissionDate", pat "FileTransmissionDate");
    ("UPRR Job Number", pat "UPRR\s?Job\s?Number");
    ("LT", pat "XRX\s?Acct\s?Seq");
    ("Company Name", pat "Issue\s?Name");
    ("Company Number", pat "Company");
    ("ASTSourceFileDate", pat "ASTSourceFileDate");
    ("Account Number", pat "Account\s?(Number)?");
    ("NameAddress1", pat "Name/?\s?Address\s?1");
    ("NameAddress2", pat "Name/?\s?Address\s?2");
    ("NameAddress3", pat "Name/?\s?Address\s?3");
    ("NameAddress4", pat "Name/?\s?Address\s?4");
    ("NameAddress5", pat "Name/?\s?Address\s?5");
    ("NameAddress6", pat "Name/?\s?Address\s?6");
    ("NameAddress7", pat "Name/?\s?Address\s?7");
    ("NameAddress8", pat "Name/?\s?Address\s?8");
    ("Verification Code", pat "Verification\s?Code");
    ("Filler", pat "Filler");
    ("Mailing City", pat "City");
    ("Zip", pat "Zip");
    ("Mailing State", pat "(Mailing\s?)?State");
    ("Shares", pat "Eligible\s?Shares");
    ("Certified", pat "Certified");
    ("LetterCode", pat "Letter\s?Code");
    ("Sequence", pat "Sequence");
    ("Escheatment State", pat "(Escheatment|Eligibility)\s?State");
    ("AddressType", pat "Address\s?Type") ].

(** [static_hdr = [f[0] for f in data_fields]]. *)
Definition static_hdr : list string := map fst create_data_fields.

(** The pattern of a canonical field. *)
Definition field_pattern (name : string) : Re.pattern :=
  match filter (λ f, f.1 = name) create_data_fields with
  | f :: _ => f.2
  | [] => Re.Pattern Re.Never false
  end.

(** [static_hdr.index(name)].  Every name the program looks up is in the
    header ([static_hdr_positions] below), so the [ValueError] of a missing
    name does not arise and the position is a plain number. *)
Definition hdr (name : string) : nat :=
  match py_index name static_hdr with
  | Ok i => i
  | Err _ => 0
  end.

Definition lt_idx : nat := Eval vm_compute in hdr "LT".
Definition company_idx : nat := Eval vm_compute in hdr "Company Number".
Definition account_idx : nat := Eval vm_compute in hdr "Account Number".
Definition addr1_idx : nat := Eval vm_compute in hdr "NameAddress1".
Definition addr7_idx : nat := Eval vm_compute in hdr "NameAddress7".
Definition addr8_idx : nat := Eval vm_compute in hdr "NameAddress8".
Definition city_idx : nat := Eval vm_compute in hdr "Mailing City".
Definition zip_idx : nat := Eval vm_compute in hdr "Zip".
Definition state_idx : nat := Eval vm_compute in hdr "Mailing State".
Definition lettercode_idx : nat := Eval vm_compute in hdr "LetterCode".
Definition escheat_idx : nat := Eval vm_compute in hdr "Escheatment State".
Definition addrtype_idx : nat := Eval vm_compute in hdr "AddressType".

(** [create_us_dict]: the lookup table of the Escheatment State. *)
Definition create_us_dict : gmap string string :=
  dict_of
  [ ("AL", "Alabama"); ("AK", "Alaska"); ("AZ", "Arizona");
    ("AR", "Arkansas"); ("CA", "California"); ("CO", "Colorado");
    ("CT", "Connecticut"); ("DE", "Delaware"); ("FL", "Florida");
    ("GA", "Georgia"); ("HI", "Hawaii"); ("ID", "Idaho"); ("IL", "Illinois");
    ("IN", "Indiana"); ("IA", "Iowa"); ("KS", "Kansas"); ("KY", "Kentucky");
    ("LA", "Louisiana"); ("ME", "Maine"); ("MD", "Maryland");
    ("MA", "Massachusetts"); ("MI", "Michigan"); ("MN", "Minnesota");
    ("MS", "Mississippi"); ("MO", "Missouri"); ("MT", "Montana");
    ("NE", "Nebraska"); ("NV", "Nevada"); ("NH", "New Hampshire");
    ("NJ", "New Jersey"); ("NM", "New Mexico"); ("NY", "New York");
    ("NC", "North Carolina"); ("ND", "North Dakota"); ("OH", "Ohio");
    ("OK", "Oklahoma"); ("OR", "Oregon"); ("PA", "Pennsylvania");
    ("RI", "Rhode Island"); ("SC", "South Carolina"); ("SD", "South Dakota");
    ("TN", "Tennessee"); ("TX", "Texas"); ("UT", "Utah"); ("VT", "Vermont");
    ("VA", "Virginia"); ("WA", "Washington"); ("WV", "West Virginia");
    ("WI", "Wisconsin"); ("WY", "Wyoming"); ("AS", "American Samoa");
    ("DC", "District of Columbia"); ("FM", "Micronesia");
    ("FM", "Federated States of Micronesia"); ("GU", "Guam");
    ("MH", "Marshall Islands"); ("MP", "Northern Mariana Islands");
    ("PW", "Palau"); ("PR", "Puerto Rico"); ("VI", "U.S. Virgin Islands") ].

(** ** Sanitising bytes *)

Module Codec.

Definition replacement : N := 65533.   (* U+FFFD *)
Definition broken_bar : N := 166.      (* U+00A6 *)
Definition nb_space : N := 160.        (* U+00A0 *)
Definition blank : N := 32.

(** [u.replace(old, new)] for single code points. *)
Definition replace (old new : N) (u : list N) : list N :=
  map (λ c, if N.eqb c old then new else c) u.

(** [u.encode(codec)] for a codec that covers the code points below
    [limit] ([latin-1]: 256, [ascii]: 128) and raises on any other. *)
Fixpoint encode (limit : N) (u : list N) : result string :=
  match u with
  | [] => Ok EmptyString
  | c :: u' =>
      if N.ltb c limit
      then s ← encode limit u'; Ok (String (ascii_of_N c) s)
      else Err UnicodeEncodeError
  end.

(** [s.decode("ascii", errors='replace')]: a byte above 127 becomes
    U+FFFD. *)
Fixpoint decode_ascii_replace (s : string) : list N :=
  match s with
  | EmptyString => []
  | String b s' =>
      (if N.ltb (N_of_ascii b) 128 then N_of_ascii b else replacement)
      :: decode_ascii_replace s'
  end.

(** The behaviour of [decode("utf-8", errors='replace')] on 7-bit text,
    where every byte is the code point of the same number.  It stands for
    the interpreter's decoder when the decoders below are run on 7-bit
    inputs. *)
Definition decode_7bit (s : string) : list N := decode_ascii_replace s.

End Codec.

Section Decoders.

(** [text.decode("utf-8", errors='replace')], the interpreter's UTF-8
    decoder, is not part of the program and is taken as given. *)
Variable utf8_decode_replace : string → list N.

(** [replaceNonAsciiChars]. *)
Definition replaceNonAsciiChars (text : string) : result string :=
  let char_text :=
    Codec.replace Codec.replacement Codec.blank (utf8_decode_replace text) in
  let replace_nbspace := Codec.replace Codec.broken_bar Codec.blank char_text in
  let replace_bknbar := Codec.replace Codec.nb_space Codec.blank replace_nbspace in
  latin_text ← Codec.encode 256 replace_bknbar;
  let ascii_char :=
    Codec.replace Codec.replacement Codec.blank
      (Codec.decode_ascii_replace latin_text) in
  Codec.encode 128 ascii_char.

(** *** The fixed-width decoder *)

(** [formatStr]: the byte widths of the 24 fields of a flat-file line. *)
Definition formatStr : list nat :=
  [8; 6; 9; 40; 12; 8; 19; 40; 40; 40; 40; 40; 40; 40; 4; 36; 40; 9; 2; 14;
   1; 2; 6; 20].

Fixpoint slices (widths : list nat) (s : string) : list string :=
  match widths with
  | [] => []
  | w :: widths' => Str.take w s :: slices widths' (Str.drop w s)
  end.

(** [struct.Struct(fmt).unpack_from(buf)]: the buffer must hold at least
    the bytes of the layout; what follows them is ignored. *)
Definition unpack_from (widths : list nat) (buf : string) : result (list string) :=
  if bool_decide (String.length buf < sum_list widths)
  then Err StructError
  else Ok (slices widths buf).

(** The body of the loop of [processTXT], for one line of the file. *)
Definition processTXT_line (line : string) : result (list string) :=
  ascii_line ← replaceNonAsciiChars line;
  fields ← unpack_from formatStr ascii_line;
  let outputLine := map Str.squeeze fields in
  let outputLine := py_insert addr7_idx "" outputLine in
  Ok (outputLine ++ [""]).

(** [processTXT], on the lines of the input file. *)
Fixpoint processTXT_loop (lines : list string) (recordsList : list (list string))
  : result (list (list string)) :=
  match lines with
  | [] => Ok recordsList
  | line :: lines' =>
      outputLine ← processTXT_line line;
      processTXT_loop lines' (recordsList ++ [outputLine])
  end.

Definition processTXT (lines : list string) : result (list (list string)) :=
  processTXT_loop lines [].

(** *** The field mapper *)

(** The inner loop of [getFieldsIndxs] for one canonical field: the first
    column the pattern matches decides; what is looked up in the header is
    the text the pattern matched, [group(0)].  With no column matching, the
    [else] branch of the loop reads the loop variable, which an empty
    header leaves unbound. *)
Fixpoint scan_cols (pattern : Re.pattern) (data_cols cols : list string)
  : result pyval :=
  match cols with
  | [] =>
      match data_cols with
      | [] => Err UnboundLocalError
      | _ => Ok (PyStr "")
      end
  | col :: cols' =>
      match Re.match_ pattern col with
      | Some field_found =>
          found_idx ← py_index field_found data_cols;
          Ok (PyInt (Z.of_nat found_idx))
      | None => scan_cols pattern data_cols cols'
      end
  end.

Fixpoint fields_loop (data_cols : list string)
    (data_fields : list (string * Re.pattern)) (field_indxs : list pyval)
  : result (list pyval) :=
  match data_fields with
  | [] => Ok field_indxs
  | (fieldName, pattern) :: data_fields' =>
      idx ← scan_cols pattern data_cols data_cols;
      fields_loop data_cols data_fields' (field_indxs ++ [idx])
  end.

(** [getFieldsIndxs]. *)
Definition getFieldsIndxs (csv_hdr : list string)
    (data_fields : list (string * Re.pattern)) : result (list pyval) :=
  let data_cols := map Str.squeeze csv_hdr in
  fields_loop data_cols data_fields [].

(** *** The tabular decoder *)

(** [getFieldValuesFromLine]. *)
Fixpoint getFieldValuesFromLine_loop (line : list string)
    (field_indxs : list pyval) (asciiRow : list string) : result (list string) :=
  match field_indxs with
  | [] => Ok asciiRow
  | idx :: field_indxs' =>
      if py_eq idx (PyStr "")
      then getFieldValuesFromLine_loop line field_indxs' (asciiRow ++ [""])
      else
        match idx with
        | PyInt z =>
            field ← py_item line z;
            ascii_field ← replaceNonAsciiChars field;
            let reduced_field := Str.squeeze ascii_field in
            getFieldValuesFromLine_loop line field_indxs'
              (asciiRow ++ [reduced_field])
        | PyStr _ => Err TypeError
        end
  end.

Definition getFieldValuesFromLine (line : list string) (field_indxs : list pyval)
  : result (list string) :=
  getFieldValuesFromLine_loop line field_indxs [].

(** The test that guards the [break] of [processXLSfromCSV]:
    [line[:5].count("") == ""]. *)
Definition end_of_data (line : list string) : bool :=
  py_eq (PyInt (py_count "" (take 5 line))) (PyStr "").

(** The [else] branch of the loop of [processXLSfromCSV]: one data row
    becomes one record. *)
Definition processXLS_row (us_dict : gmap string string)
    (field_indxs : list pyval) (line : list string) : result (list string) :=
  dataRow ← getFieldValuesFromLine line field_indxs;
  escheat_state ← py_get dataRow escheat_idx;
  state_name ← dict_get us_dict escheat_state;
  dataRow ← py_set dataRow escheat_idx state_name;
  lt ← py_get dataRow lt_idx;
  if String.eqb lt ""
  then
    compNo ← py_get dataRow company_idx;
    acctNo ← py_get dataRow account_idx;
    py_set dataRow lt_idx (compNo +:+ acctNo)
  else Ok dataRow.

Fixpoint processXLS_loop (us_dict : gmap string string)
    (field_indxs : list pyval) (rows : list (list string))
    (recordsList : list (list string)) : result (list (list string)) :=
  match rows with
  | [] => Ok recordsList
  | line :: rows' =>
      if end_of_data line then Ok recordsList
      else
        dataRow ← processXLS_row us_dict field_indxs line;
        processXLS_loop us_dict field_indxs rows' (recordsList ++ [dataRow])
  end.

(** [processXLSfromCSV], on the rows the [csv] reader yields: the header
    first, then the data rows. *)
Definition processXLSfromCSV (table : list (list string))
    (us_dict : gmap string string) (data_fields : list (string * Re.pattern))
  : result (list (list string)) :=
  match table with
  | [] => Err StopIteration
  | csv_hdr :: rows =>
      field_indxs ← getFieldsIndxs csv_hdr data_fields;
      processXLS_loop us_dict field_indxs rows []
  end.

End Decoders.

(** ** The record classifier *)

(** The records of a batch are Python lists that the classifier changes in
    place while several containers hold them.  The store keeps the lists;
    a record is named by its position in the store. *)
Abbreviation store := (list (list string)).

(** [records_dict]: the four mailing categories, each a list of records in
    the order they were appended. *)
Record records_dict : Type := RecordsDict {
  MEX : list nat;
  CAN : list nat;
  FGN : list nat;
  DOM : list nat
}.

(** [record[i]] and [record[i] = v] through the store. *)
Definition get_field (st : store) (record i : nat) : result string :=
  row ← py_get st record; py_get row i.

Definition set_field (st : store) (record i : nat) (v : string) : result store :=
  row ← py_get st record;
  row' ← py_set row i v;
  Ok (<[record := row']> st).

(** The postal code of a domestic record:
    [if len(zip) > 5 and "-" not in zip: zip = "{}-{}".format(zip[:5], zip[5:])]. *)
Definition normalizeZip (zip : string) : string :=
  if bool_decide (5 < String.length zip) && negb (Str.contains "-" zip)
  then Str.take 5 zip +:+ "-" +:+ Str.drop 5 zip
  else zip.

(** The loop of [createRecordsDict]. *)
Fixpoint createRecordsDict_loop (letterCode : string) (recordsList : list nat)
    (st : store) (foreignData : list nat) (d : records_dict)
  : result (store * list nat * records_dict) :=
  match recordsList with
  | [] => Ok (st, foreignData, d)
  | dataRow :: recordsList' =>
      st ← set_field st dataRow lettercode_idx letterCode;
      state ← get_field st dataRow state_idx;
      if String.eqb state "FO"
      then
        st ← set_field st dataRow zip_idx "";
        createRecordsDict_loop letterCode recordsList' st
          (foreignData ++ [dataRow]) d
      else
        zip ← get_field st dataRow zip_idx;
        let zip := normalizeZip zip in
        st ← set_field st dataRow zip_idx zip;
        st ← set_field st dataRow addrtype_idx "DOM";
        createRecordsDict_loop letterCode recordsList' st foreignData
          (RecordsDict (MEX d) (CAN d) (FGN d) (DOM d ++ [dataRow]))
  end.

(** *** The country inference heuristic *)

Definition canada_places : list string :=
  [
    "Canada"; "Alberta"; "Calgary"; "Edmonton"; "Strathcona County";
    "British Columbia"; "Vancouver"; "Surrey"; "Burnaby"; "Manitoba";
    "Winnipeg"; "Brandon"; "Springfield"; "New Brunswick"; "Moncton";
    "Saint John"; "Fredericton"; "Newfoundland and Labrador"; "St. John's";
    "Conception Bay South"; "Mount Pearl"; "Northwest Territories";
    "Yellowknife"; "Hay River"; "Inuvik"; "Nova Scotia"; "Halifax"; "Sydney";
    "Lunenburg"; "Nunavut"; "Iqaluit"; "Arviat"; "Rankin Inlet"; "Ontario";
    "Toronto"; "Ottawa"; "Mississauga"; "Prince Edward Island";
    "Charlottetown"; "Summerside"; "Stratford"; "Quebec"; "Montreal";
    "Quebec City"; "Laval"; "Saskatchewan"; "Saskatoon"; "Regina";
    "Prince Albert"; "Yukon"; "Whitehorse"; "Dawson City"; "Faro" ].

Definition mexico_places : list string :=
  [
    "Chihuahua"; "Sonora"; "Coahuila"; "Durango"; "Oaxaca"; "Tamaulipas";
    "Jalisco"; "Zacatecas"; "Baja California Sur"; "Chiapas"; "Veracruz";
    "Baja California"; "Nuevo Leon"; "Guerrero"; "San Luis Potosi";
    "Michoacan"; "Sinaloa"; "Campeche"; "Quintana Roo"; "Yucatan"; "Puebla";
    "Guanajuato"; "Nayarit"; "Tabasco"; "Mexico"; "Hidalgo"; "Queretaro";
    "Colima"; "Aguascalientes"; "Morelos"; "Tlaxcala"; "Ciudad de Mexico";
    "Mexico City"; "Ecatepec"; "Guadalajara"; "Puebla"; "Juarez"; "Tijuana";
    "Leon"; "Monterrey"; "Zapopan"; "Nezahualcoyotl"; "Culiacan"; "Chihuahua";
    "Naucalpan"; "Merida"; "San Luis Potosi"; "Aguascalientes"; "Hermosillo";
    "Saltillo"; "Mexicali"; "Guadalupe"; "Acapulco"; "Tlalnepantla"; "Cancun";
    "Queretaro"; "Chimalhuacan"; "Torreon"; "Morelia"; "Reynosa";
    "Tlaquepaque"; "Tuxtla Gutierrez"; "Durango"; "Toluca";
    "Ciudad Lopez Mateos"; "Cuautitlan Izcalli"; "Ciudad Apodaca";
    "Matamoros"; "San Nicolas de los Garza"; "Veracruz"; "Xalapa"; "Tonala";
    "Mazatlan"; "Irapuato"; "Nuevo Laredo"; "Xico"; "Villahermosa";
    "General Escobedo"; "Celaya"; "Cuernavaca"; "Tepic"; "Ixtapaluca";
    "Ciudad Victoria"; "Ciudad Obregon"; "Tampico"; "Ciudad Nicolas Romero";
    "Ensenada"; "Coacalco de Berriozabal"; "Santa Catarina"; "Uruapan";
    "Gomez Palacio"; "Los Mochis"; "Pachuca"; "Oaxaca";
    "Soledad de Graciano Sanchez"; "Tehuacan"; "Ojo de Agua"; "Coatzacoalcos";
    "Campeche"; "Monclova"; "La Paz"; "Nogales"; "Buenavista";
    "Puerto Vallarta"; "Tapachula"; "Ciudad Madero";
    "San Pablo de las Salinas"; "Chilpancingo"; "Poza Rica";
    "Chicoloapan de Juarez"; "Ciudad del Carmen";
    "Chalco de Diaz Covarrubias"; "Jiutepec"; "Salamanca";
    "San Luis Rio Colorado"; "Cuautla"; "Ciudad Benito Juarez"; "Chetumal";
    "Piedras Negras"; "Playa del Carmen"; "Zamora"; "Cordoba";
    "San Juan del Rio"; "Colima"; "Ciudad Acuna"; "Manzanillo"; "Zacatecas";
    "Veracruz"; "Ciudad Valles"; "Guadalupe"; "San Pedro Garza Garcia";
    "Naucalpan"; "Fresnillo"; "Orizaba"; "Miramar"; "Iguala"; "Delicias";
    "Ciudad de Villa de alvarez"; "Ciudad Cuauhtemoc"; "Navojoa"; "Guaymas";
    "Minatitlan"; "Cuautitlan"; "Texcoco"; "Hidalgo del Parral"; "Tepexpan";
    "Tulancingo" ].

Definition canada_provinces : string :=
  "\b" +:+ Str.join "\b|\b" canada_places +:+ "\b".

Definition mexico_states_cities : string :=
  "\b" +:+ Str.join "\b|\b" mexico_places +:+ "\b".

Definition canada_zip_pattern : Re.pattern :=
  Re.compile
    "\b[ABCEGHJ-NPRSTVXY][0-9][ABCEGHJ-NPRSTV-Z](\s|-)?[0-9][ABCEGHJ-NPRSTV-Z][0-9]\b"
    true.

Definition canada_prov_pattern : Re.pattern :=
  Eval vm_compute in Re.compile canada_provinces true.

Definition canada_major_cities_pattern : Re.pattern :=
  Re.compile "\bCANADA\b|\bTORONTO\b|\bONTARIO\b|\bQUEBEC\b|\bALBERTA\b|\bMONTREAL\b"
    true.

Definition ontario_quebec_abbv_pattern : Re.pattern :=
  Re.compile "(\bON\b)|(\bQC\b)\s\b[ABCEGHJ-NPRSTVXY][0-9][ABCEGHJ-NPRSTV-Z]" true.

Definition mexico_states_cities_pattern : Re.pattern :=
  Eval vm_compute in Re.compile mexico_states_cities true.

Definition not_canada_pattern : Re.pattern :=
  Re.compile "\bLONDON\b|\bUK\b|\bUNIT\b|\bGBR\b|\bAUS(TRALIA)?\b" true.

Definition not_mexico_pattern : Re.pattern :=
  Re.compile "\bSPAIN\b|\bESPANA\b|\bITALY\b" true.

(** The condition of the [if] of [sortForeignByCountry]. *)
Definition is_canada (record_city last_addr_field : string) : bool :=
  (Re.search canada_zip_pattern record_city
   || Re.search ontario_quebec_abbv_pattern record_city
   || Re.search canada_major_cities_pattern last_addr_field
   || Re.search canada_prov_pattern record_city)
  && negb (Re.search not_canada_pattern record_city).

(** The condition of its [elif]. *)
Definition is_mexico (record_city : string) : bool :=
  Re.search mexico_states_cities_pattern record_city
  && negb (Re.search not_mexico_pattern record_city).

(** [sorted(rows, key=...)] on records already paired with their keys:
    a stable sort, so records with equal keys keep their order. *)
Fixpoint insert_by_key (x : string * nat) (l : list (string * nat))
  : list (string * nat) :=
  match l with
  | [] => [x]
  | y :: l' =>
      if Str.ltb y.1 x.1 then y :: insert_by_key x l' else x :: y :: l'
  end.

Definition sort_by_key (l : list (string * nat)) : list (string * nat) :=
  foldr insert_by_key [] l.

(** The keys of [sorted(foreignData, key=lambda row: row[city_idx])]. *)
Fixpoint city_keys (st : store) (foreignData : list nat)
  : result (list (string * nat)) :=
  match foreignData with
  | [] => Ok []
  | row :: foreignData' =>
      key ← get_field st row city_idx;
      rest ← city_keys st foreignData';
      Ok ((key, row) :: rest)
  end.

(** [[f for f in fields if f.upper() not in ["", "NULL"]]]. *)
Definition no_blanks (fields : list string) : list string :=
  filter (λ f, Str.upper f ∉ ["" ; "NULL"]) fields.

(** The loop of [sortForeignByCountry] over the sorted records. *)
Fixpoint sortForeign_loop (sorted_foreign : list nat) (st : store)
    (d : records_dict) : result (store * records_dict) :=
  match sorted_foreign with
  | [] => Ok (st, d)
  | record :: sorted_foreign' =>
      row ← py_get st record;
      let addrfields := no_blanks (py_slice addr1_idx (addr8_idx + 1) row) in
      last_addr_field ← py_item addrfields (-1);
      record_city ← py_get row city_idx;
      if is_canada record_city last_addr_field
      then
        st ← set_field st record addrtype_idx "CAN";
        sortForeign_loop sorted_foreign' st
          (RecordsDict (MEX d) (CAN d ++ [record]) (FGN d) (DOM d))
      else if is_mexico record_city
      then
        st ← set_field st record addrtype_idx "MEX";
        sortForeign_loop sorted_foreign' st
          (RecordsDict (MEX d ++ [record]) (CAN d) (FGN d) (DOM d))
      else
        st ← set_field st record addrtype_idx "FGN";
        sortForeign_loop sorted_foreign' st
          (RecordsDict (MEX d) (CAN d) (FGN d ++ [record]) (DOM d))
  end.

(** [sortForeignByCountry]. *)
Definition sortForeignByCountry (st : store) (foreignData : list nat)
    (d : records_dict) : result (store * records_dict) :=
  keyed ← city_keys st foreignData;
  let sorted_foreign := map snd (sort_by_key keyed) in
  sortForeign_loop sorted_foreign st d.

(** [createRecordsDict], on records held in a store. *)
Definition createRecordsDict_in (st : store) (recordsList : list nat)
    (letterCode : string) : result (store * records_dict) :=
  '(st, foreignData, d) ←
    createRecordsDict_loop letterCode recordsList st [] (RecordsDict [] [] [] []);
  sortForeignByCountry st foreignData d.

(** [createRecordsDict] on a list of freshly decoded records: the store is
    the list itself, record [i] being the list at position [i]. *)
Definition createRecordsDict (recordsList : list (list string))
    (letterCode : string) : result (store * records_dict) :=
  createRecordsDict_in recordsList (seq 0 (length recordsList)) letterCode.

(** ** The address block formatter *)

Definition apt_pattern : Re.pattern :=
  Re.compile
    "^((#|B(UI)?LD(IN)?G|SUITE|LOT|UNIT|FLOOR|R(OO)?M|AP(ARTMEN)?T).+|(\d{1,4}\s?\w)|(\d{1,3}(ST|ND|RD|TH)?\s?FL(OO)?R?))$"
    true.

(** [formatForeignAddress]. *)
Definition formatForeignAddress (namesAndStreet_NoBlanks : list string)
    (city : string) : list string :=
  let namesAndStreet_NoBlanks := namesAndStreet_NoBlanks ++ [city] in
  let spaceShift := replicate (8 - length namesAndStreet_NoBlanks) "" in
  let deliveryAddr := "" in
  let alternateAddr := "" in
  let cityStateZip := [""; ""; ""] in
  namesAndStreet_NoBlanks ++ spaceShift ++ [deliveryAddr; alternateAddr]
    ++ cityStateZip.

(** [formatDomesticAddress].  [[""] * n] is empty when [n] is negative, as
    is [replicate] of a truncated difference. *)
Definition formatDomesticAddress (namesAndStreet_NoBlanks cityStateZip : list string)
  : result (list string) :=
  if bool_decide (length namesAndStreet_NoBlanks < 2)
  then
    let spaceShift := replicate (8 - length namesAndStreet_NoBlanks) "" in
    let deliveryAddr := "" in
    let alternateAddr := "" in
    Ok (namesAndStreet_NoBlanks ++ spaceShift ++ [deliveryAddr; alternateAddr]
          ++ cityStateZip)
  else
    deliveryAddr ← py_item namesAndStreet_NoBlanks (-1);
    let is_apt :=
      Re.matches apt_pattern deliveryAddr
      && bool_decide (2 < length namesAndStreet_NoBlanks) in
    let addrIdx := if is_apt then (-2)%Z else (-1)%Z in
    alternateAddr ←
      (if is_apt then py_item namesAndStreet_NoBlanks (-1) else Ok "");
    let nameLines := py_upto addrIdx namesAndStreet_NoBlanks in
    let spacesShift := replicate (8 - length nameLines) "" in
    deliveryAddr ← py_item namesAndStreet_NoBlanks addrIdx;
    Ok (nameLines ++ spacesShift ++ [deliveryAddr; alternateAddr] ++ cityStateZip).

(** [[line[i] for i in idxs]], reading left to right. *)
Fixpoint py_gets (line : list string) (idxs : list nat) : result (list string) :=
  match idxs with
  | [] => Ok []
  | i :: idxs' =>
      x ← py_get line i;
      xs ← py_gets line idxs';
      Ok (x :: xs)
  end.

(** [createMMAddress]. *)
Definition createMMAddress (line : list string) : result (list string) :=
  mmfields ← py_gets line
    [ hdr "NameAddress1"; hdr "NameAddress2"; hdr "NameAddress3";
      hdr "NameAddress4"; hdr "NameAddress5"; hdr "NameAddress6";
      hdr "NameAddress7"; hdr "NameAddress8"; hdr "Mailing City";
      hdr "Mailing State"; hdr "Zip" ];
  let namesAndStreet := take 8 mmfields in
  let namesAndStreet_NoBlanks := no_blanks namesAndStreet in
  city ← py_get mmfields 8;
  let cityStateZip := drop 8 mmfields in
  addressType ← py_get line addrtype_idx;
  if bool_decide (addressType ∈ ["MEX"; "CAN"; "FGN"])
  then Ok (formatForeignAddress namesAndStreet_NoBlanks city)
  else formatDomesticAddress namesAndStreet_NoBlanks cityStateZip.


(** ** Sample inputs *)

(** A flat-file line from its field values: each value is padded with
    blanks to the width of its field, and the line ends in a newline. *)
Definition pad (width : nat) (s : string) : string :=
  s +:+ string_of_list_ascii (replicate (width - String.length s) " "%char).

Definition flat_line (fields : list string) : string :=
  foldr String.append (String Str.nl "") (zip_with pad formatStr fields).

(** The 24 values of a flat-file line, all seven address lines in use. *)
Definition sample_flat_fields : list string :=
  [ "20180128"; "J00042"; "000000017"; "ACME CORP"; "4711"; "20180101";
    "1000200";
    "JOHN DOE"; "JANE DOE JT TEN"; "C/O DOE HOLDINGS"; "ATTN MAIL ROOM";
    "TOWER B"; "123 MAIN ST"; "PO BOX 9";
    "1234"; ""; "DALLAS"; "752011234"; "TX"; "100"; "N"; "A"; "000017";
    "Texas" ].

Definition sample_flat_line : string := flat_line sample_flat_fields.

(** A spreadsheet export: the header, a data row, a row whose first five
    cells are empty, and a data row after it. *)
Definition sample_table : list (list string) :=
  [ [ "XRX Acct Seq"; "Issue Name"; "Company"; "Account"; "Name/Address1";
      "Eligibility State" ];
    [ "17"; "ACME CORP"; "4711"; "1000200"; "JOHN DOE"; "NY" ];
    [ ""; ""; ""; ""; ""; "TX" ];
    [ "18"; "ACME CORP"; "4711"; "1000201"; "JANE ROE"; "CA" ] ].

(** A spreadsheet export whose second data row names a state that the
    lookup table does not have. *)
Definition sample_header : list string :=
  [ "XRX Acct Seq"; "Issue Name"; "Company"; "Account"; "Name/Address1";
    "Eligibility State" ].

Definition sample_row_known : list string :=
  [ "17"; "ACME CORP"; "4711"; "1000200"; "JOHN DOE"; "NY" ].

Definition sample_row_unknown : list string :=
  [ "18"; "ACME CORP"; "4711"; "1000201"; "JANE ROE"; "ZZ" ].

Definition sample_row_last : list string :=
  [ "19"; "ACME CORP"; "4711"; "1000202"; "JEAN ROY"; "CA" ].

Definition sample_table_unknown : list (list string) :=
  sample_header :: [sample_row_known] ++ sample_row_unknown :: [sample_row_last].

(** A record as the decoders deliver it, from the fields the classifier and
    the formatter read. *)
Definition sample_record (addr1 addr2 addr3 city zip state : string) : list string :=
  [ "20180128"; ""; "000000017"; "ACME CORP"; "4711"; "20180101"; "1000200";
    addr1; addr2; addr3; ""; ""; ""; ""; "";
    "1234"; ""; city; zip; state; "100"; ""; ""; "000017"; "Texas"; "" ].

(** A batch of decoded records: a domestic one, one marked foreign with a
    Canadian city, and one marked foreign with a city elsewhere. *)
Definition sample_batch : list (list string) :=
  [ sample_record "JOHN DOE" "123 MAIN ST" "" "DALLAS" "752011234" "TX";
    sample_record "JANE ROE" "1 KING ST W" "" "WINDSOR ON" "N9A 1A1" "FO";
    sample_record "JEAN DUPONT" "8 RUE DE LA PAIX" "" "PARIS" "75008" "FO" ].

(** A batch whose second record is marked foreign and has no name or
    address line in use. *)
Definition sample_blank_batch : list (list string) :=
  [ sample_record "JOHN DOE" "123 MAIN ST" "" "DALLAS" "752011234" "TX";
    sample_record "" "NULL" "" "PARIS" "75008" "FO" ].

(** ** Vocabulary of the statements *)

(** The value of field [j] of record [r], if the store has it. *)
Definition field (st : store) (r j : nat) : option string :=
  row ← st !! r; row !! j.

(** The address lines of record [r] that are in use: its eight
    name/address fields without the blank and the NULL ones. *)
Definition addr_lines (st : store) (r : nat) : option (list string) :=
  row ← st !! r; Some (no_blanks (py_slice addr1_idx (addr8_idx + 1) row)).

(** Every record of the store has the 26 values of the canonical schema. *)
Definition canonical (st : store) : Prop :=
  Forall (λ row : list string, length row = 26) st.

(** The record is marked foreign by its Mailing State. *)
Definition foreign_state (st : store) (r : nat) : Prop :=
  field st r state_idx = Some "FO".

#[global] Instance foreign_state_dec (st : store) (r : nat) :
  Decision (foreign_state st r).
Proof. unfold foreign_state. apply _. Defined.

(** The category a foreign record goes to and the lists after it is
    appended: the three branches of the loop of [sortForeignByCountry]. *)
Definition destination (d : records_dict) (record : nat)
    (record_city last_addr_field : string) : string * records_dict :=
  if is_canada record_city last_addr_field
  then ("CAN", RecordsDict (MEX d) (CAN d ++ [record]) (FGN d) (DOM d))
  else if is_mexico record_city
  then ("MEX", RecordsDict (MEX d ++ [record]) (CAN d) (FGN d) (DOM d))
  else ("FGN", RecordsDict (MEX d) (CAN d) (FGN d ++ [record]) (DOM d)).

(** ** Vocabulary of the further statements *)

(** The code points of a byte string read as 7-bit text. *)
Definition codes (s : string) : list N :=
  map N_of_ascii (list_ascii_of_string s).

(** Every byte of the string is below 128. *)
Definition is_7bit (s : string) : Prop :=
  Forall (λ c, (c < 128)%N) (codes s).

(** What [replaceNonAsciiChars] makes of one decoded character. *)
Definition sanitized (c : N) : ascii :=
  if (c <? 128)%N then ascii_of_N c else " "%char.

(** The decoded characters [latin-1] can encode once U+FFFD is replaced. *)
Definition encodable (c : N) : bool :=
  (c <? 256)%N || (c =? Codec.replacement)%N.

(** The three replacements in one pass. *)
Definition replaced (c : N) : N :=
  if (c =? 65533)%N || (c =? 166)%N || (c =? 160)%N then 32%N else c.

(** * Properties *)

(** ** Sequencing *)

Lemma bind_Ok {A B : Type} (a : A) (f : A → result B) : (Ok a ≫= f) = f a.
Proof. reflexivity. Qed.

Lemma bind_Err {A B : Type} (e : exn) (f : A → result B) : (Err e ≫= f) = Err e.
Proof. reflexivity. Qed.

Lemma bind_inv {A B : Type} (m : result A) (f : A → result B) (b : B) :
  (m ≫= f) = Ok b → ∃ a, m = Ok a ∧ f a = Ok b.
Proof. destruct m as [a|e]; [eauto | discriminate]. Qed.

(** Split a successful sequence [H] into its first step and the rest. *)
Tactic Notation "bind_in" hyp(H) "as" ident(x) ident(Hx) :=
  apply bind_inv in H as (x & Hx & H); cbn beta in H.

Lemma py_get_Ok {A : Type} (l : list A) (i : nat) (x : A) :
  py_get l i = Ok x ↔ l !! i = Some x.
Proof. unfold py_get. destruct (l !! i); split; congruence. Qed.

Lemma py_get_lt {A : Type} (l : list A) (i : nat) :
  i < length l → ∃ x, py_get l i = Ok x ∧ l !! i = Some x.
Proof.
  intros Hi. destruct (lookup_lt_is_Some_2 l i Hi) as [x Hx].
  exists x. split; [by apply py_get_Ok | done].
Qed.

Lemma py_set_lt {A : Type} (l : list A) (i : nat) (x : A) :
  i < length l → py_set l i x = Ok (<[i := x]> l).
Proof. intros Hi. unfold py_set. by rewrite bool_decide_eq_true_2. Qed.

Lemma py_set_inv {A : Type} (l l' : list A) (i : nat) (x : A) :
  py_set l i x = Ok l' → i < length l ∧ l' = <[i := x]> l.
Proof. unfold py_set. case_bool_decide; [|discriminate]. intros [= <-]. done. Qed.

(** ** Postal codes *)

Lemma append_cons (c : ascii) (a b : string) :
  String c a +:+ b = String c (a +:+ b).
Proof. reflexivity. Qed.

Lemma contains_hyphen_app (a b : string) :
  Str.contains "-" (a +:+ "-" +:+ b) = true.
Proof.
  induction a as [|c a IH].
  - destruct b; reflexivity.
  - rewrite append_cons. cbn [Str.contains]. rewrite IH. apply orb_true_r.
Qed.

(** C8. Normalising a domestic postal code twice gives what normalising it
    once gives, and a code of five characters or fewer is returned as it
    is. *)
Theorem normalizeZip_idempotent (zip : string) :
  normalizeZip (normalizeZip zip) = normalizeZip zip
  ∧ (String.length zip ≤ 5 → normalizeZip zip = zip).
Proof.
  split.
  - unfold normalizeZip at 2 3.
    destruct (bool_decide (5 < String.length zip) && negb (Str.contains "-" zip))
      eqn:Hc.
    + unfold normalizeZip. rewrite contains_hyphen_app. cbn [negb].
      by rewrite andb_false_r.
    + unfold normalizeZip. by rewrite Hc.
  - intros Hlen. unfold normalizeZip.
    rewrite bool_decide_eq_false_2 by lia. done.
Qed.

Lemma normalizeZip_idempotent_witness :
  normalizeZip (normalizeZip "752011234") = normalizeZip "752011234"
  ∧ normalizeZip "75201" = "75201".
Proof.
  split.
  - apply (normalizeZip_idempotent "752011234").
  - apply (normalizeZip_idempotent "75201"). simpl. lia.
Defined.

(** ** The address block *)

Lemma py_item_neg {A : Type} (l tl : list A) (x : A) :
  py_item (l ++ x :: tl) (- Z.of_nat (S (length tl))) = Ok x.
Proof.
  unfold py_item.
  rewrite bool_decide_eq_false_2 by lia.
  rewrite length_app. cbn [length].
  rewrite bool_decide_eq_true_2 by lia.
  apply py_get_Ok.
  replace (Z.to_nat _) with (length l + 0) by lia.
  by rewrite lookup_app_r, Nat.add_0_r at 1 by lia; rewrite Nat.sub_diag.
Qed.

Lemma py_upto_neg {A : Type} (l tl : list A) :
  tl ≠ [] → py_upto (- Z.of_nat (length tl)) (l ++ tl) = l.
Proof.
  intros Htl. unfold py_upto.
  assert (0 < length tl) by (destruct tl; [done | cbn; lia]).
  rewrite bool_decide_eq_false_2 by lia.
  rewrite length_app.
  replace (Z.to_nat _) with (length l) by lia.
  by rewrite take_app_length.
Qed.

(** With an apartment line last and at least one name line, the street is
    the line before it. *)
Lemma formatDomesticAddress_apartment (names csz : list string) (street apt : string) :
  Re.matches apt_pattern apt = true →
  names ≠ [] →
  formatDomesticAddress (names ++ [street; apt]) csz
  = Ok (names ++ replicate (8 - length names) "" ++ [street; apt] ++ csz).
Proof.
  intros Hapt Hnames. unfold formatDomesticAddress.
  assert (0 < length names) by (destruct names; [done | cbn; lia]).
  rewrite length_app. cbn [length].
  rewrite bool_decide_eq_false_2 by lia.
  assert (py_item (names ++ [street; apt]) (-1) = Ok apt) as ->.
  { change (names ++ [street; apt]) with (names ++ [street] ++ [apt]).
    rewrite app_assoc. apply (py_item_neg (names ++ [street]) [] apt). }
  rewrite bind_Ok. cbv zeta.
  rewrite Hapt, bool_decide_eq_true_2 by lia. cbn [andb].
  rewrite bind_Ok.
  rewrite (py_upto_neg names [street; apt] ltac:(done) : py_upto (-2) _ = _).
  rewrite (py_item_neg names [apt] street : py_item _ (-2) = _).
  by rewrite bind_Ok.
Qed.

Lemma mm_columns :
  [ hdr "NameAddress1"; hdr "NameAddress2"; hdr "NameAddress3";
    hdr "NameAddress4"; hdr "NameAddress5"; hdr "NameAddress6";
    hdr "NameAddress7"; hdr "NameAddress8"; hdr "Mailing City";
    hdr "Mailing State"; hdr "Zip" ]
  = [7; 8; 9; 10; 11; 12; 13; 14; 17; 19; 18].
Proof. vm_compute. reflexivity. Qed.

Lemma no_blanks_length (fields : list string) :
  length (no_blanks fields) ≤ length fields.
Proof. apply length_filter. Qed.

(** A list of known length is the list of its elements. *)
Ltac explode l Hlen :=
  repeat (let x := fresh "x" in destruct l as [|x l]; [discriminate Hlen|]);
  destruct l; [clear Hlen|discriminate Hlen].

(** C7. A domestic record whose compacted address lines are at least three
    and end in an apartment line gets the line before it as the delivery
    address, the apartment line as the alternate address, and the earlier
    lines as name lines padded with blanks to eight slots; the lines
    JOHN DOE, 123 MAIN ST, APT 4B are such a case. *)
Theorem createMMAddress_apartment :
  (∀ (line names : list string) (street apt : string),
      length line = 26 →
      (∀ t, line !! addrtype_idx = Some t → t ∉ ["MEX"; "CAN"; "FGN"]) →
      no_blanks (py_slice addr1_idx (addr8_idx + 1) line) = names ++ [street; apt] →
      names ≠ [] →
      Re.matches apt_pattern apt = true →
      ∃ city state zip,
        line !! city_idx = Some city ∧ line !! state_idx = Some state
        ∧ line !! zip_idx = Some zip
        ∧ length (names ++ replicate (8 - length names) "") = 8
        ∧ createMMAddress line
          = Ok ((names ++ replicate (8 - length names) "")
                  ++ [street; apt; city; state; zip]))
  ∧ (∀ cityStateZip,
        formatDomesticAddress ["JOHN DOE"; "123 MAIN ST"; "APT 4B"] cityStateZip
        = Ok (["JOHN DOE"; ""; ""; ""; ""; ""; ""; ""]
                ++ ["123 MAIN ST"; "APT 4B"] ++ cityStateZip)).
Proof.
  split.
  - intros line names street apt Hlen. explode line Hlen.
    intros Htype Hlines Hnames Hapt.
    exists x16, x18, x17. do 3 (split; [reflexivity|]).
    assert (length names + 2 ≤ 8) as Hn.
    { pose proof (no_blanks_length [x6; x7; x8; x9; x10; x11; x12; x13]) as Hle.
      change (py_slice addr1_idx (addr8_idx + 1) _)
        with [x6; x7; x8; x9; x10; x11; x12; x13] in Hlines.
      rewrite Hlines, length_app in Hle. cbn [length] in Hle. lia. }
    split.
    { rewrite length_app, length_replicate. lia. }
    unfold createMMAddress. rewrite mm_columns.
    cbn [py_gets py_get lookup list_lookup]. rewrite !bind_Ok.
    cbn [py_get lookup list_lookup addrtype_idx]. rewrite !bind_Ok.
    rewrite bool_decide_eq_false_2 by (apply Htype; reflexivity).
    change (take 8 _) with [x6; x7; x8; x9; x10; x11; x12; x13].
    change (py_slice addr1_idx (addr8_idx + 1) _)
      with [x6; x7; x8; x9; x10; x11; x12; x13] in Hlines.
    rewrite Hlines.
    rewrite formatDomesticAddress_apartment by done.
    by rewrite <- !app_assoc.
  - intros csz.
    apply (formatDomesticAddress_apartment ["JOHN DOE"] csz "123 MAIN ST" "APT 4B");
      [vm_compute; reflexivity | done].
Qed.

Lemma createMMAddress_apartment_witness :
  createMMAddress
    [ "20180128"; ""; "000000017"; "ACME CORP"; "4711"; "20180101"; "1000200";
      "JOHN DOE"; "123 MAIN ST"; "APT 4B"; ""; ""; ""; ""; "";
      "1234"; ""; "DALLAS"; "75201-1234"; "TX"; "12"; ""; "A"; "000017";
      "Texas"; "DOM" ]
  = Ok [ "JOHN DOE"; ""; ""; ""; ""; ""; ""; "";
         "123 MAIN ST"; "APT 4B"; "DALLAS"; "TX"; "75201-1234" ].
Proof.
  destruct (proj1 createMMAddress_apartment
    [ "20180128"; ""; "000000017"; "ACME CORP"; "4711"; "20180101"; "1000200";
      "JOHN DOE"; "123 MAIN ST"; "APT 4B"; ""; ""; ""; ""; "";
      "1234"; ""; "DALLAS"; "75201-1234"; "TX"; "12"; ""; "A"; "000017";
      "Texas"; "DOM" ]
    ["JOHN DOE"] "123 MAIN ST" "APT 4B")
    as (city & state & zip & Hc & Hs & Hz & _ & Hout).
  - reflexivity.
  - intros t Ht. cbn in Ht. injection Ht as <-. compute_done.
  - vm_compute. reflexivity.
  - discriminate.
  - vm_compute. reflexivity.
  - injection Hc as <-. injection Hs as <-. injection Hz as <-. exact Hout.
Defined.

(** ** The fixed-width decoder *)

Lemma slices_length (widths : list nat) (s : string) :
  length (slices widths s) = length widths.
Proof.
  revert s. induction widths as [|w ws IH]; intros s; [done|].
  cbn [slices length]. by rewrite IH.
Qed.

Lemma unpack_from_length (widths : list nat) (buf : string) (fields : list string) :
  unpack_from widths buf = Ok fields → length fields = length widths.
Proof.
  unfold unpack_from. case_bool_decide; [discriminate|].
  intros [= <-]. apply slices_length.
Qed.

(** What any decoded line looks like: 26 values, the 24 of the layout with
    a blank put in front of the fourteenth (the seventh address line) and a
    blank at the end. *)
Lemma processTXT_line_layout (dec : string → list N) (line : string)
    (rec : list string) :
  processTXT_line dec line = Ok rec →
  ∃ fields,
    length fields = 24
    ∧ rec = take 13 fields ++ [""] ++ drop 13 fields ++ [""]
    ∧ length rec = 26.
Proof.
  unfold processTXT_line. intros H.
  apply bind_inv in H as (ascii_line & _ & H).
  apply bind_inv in H as (fields & Hf & H).
  apply unpack_from_length in Hf.
  assert (length (map Str.squeeze fields) = 24) as Hlen.
  { rewrite length_map, Hf. reflexivity. }
  clear Hf. revert H Hlen. generalize (map Str.squeeze fields).
  intros values H Hlen. injection H as <-.
  exists values. split; [exact Hlen|].
  unfold py_insert, addr7_idx. split.
  - rewrite <- app_assoc. reflexivity.
  - rewrite !length_app, length_take. cbn [length].
    rewrite length_drop, Hlen. reflexivity.
Qed.
(** C1. On a flat-file line whose seven address lines are all in use, the
    decoder delivers 26 values, but the blank it inserts lands in
    NameAddress7 and the seventh address line of the file in NameAddress8. *)
Theorem processTXT_blank_in_NameAddress7 :
  ∃ rec,
    processTXT Codec.decode_7bit [sample_flat_line] = Ok [rec]
    ∧ length rec = 26
    ∧ map (λ i, rec !! i) (seq addr1_idx 8)
      = [ Some "JOHN DOE"; Some "JANE DOE JT TEN"; Some "C/O DOE HOLDINGS";
          Some "ATTN MAIL ROOM"; Some "TOWER B"; Some "123 MAIN ST";
          Some ""; Some "PO BOX 9" ]
    ∧ rec !! hdr "NameAddress7" = Some ""
    ∧ rec !! hdr "NameAddress8" = Some "PO BOX 9"
    ∧ rec !! hdr "AddressType" = Some "".
Proof.
  eexists. split; [vm_compute; reflexivity|].
  do 4 (split; [vm_compute; reflexivity|]). vm_compute; reflexivity.
Qed.

(** ** The tabular decoder *)

(** The test in front of the [break] compares a count with a string and so
    never holds. *)
Lemma end_of_data_false (line : list string) : end_of_data line = false.
Proof. reflexivity. Qed.

(** C2. The loop of the tabular decoder does not stop at a row whose first
    five cells are empty: the end-of-data test is false for every row, and
    on the sample table a record is delivered for such a row and for the
    row after it. *)
Theorem processXLSfromCSV_no_sentinel :
  (∀ line, end_of_data line = false)
  ∧ take 5 (sample_table !!! 2) = [""; ""; ""; ""; ""]
  ∧ ∃ rec1 rec2 rec3,
      processXLSfromCSV Codec.decode_7bit sample_table create_us_dict
        create_data_fields = Ok [rec1; rec2; rec3]
      ∧ rec2 !! hdr "Escheatment State" = Some "Texas"
      ∧ rec3 !! hdr "NameAddress1" = Some "JANE ROE".
Proof.
  split; [exact end_of_data_false|]. split; [reflexivity|].
  do 3 eexists. split; [vm_compute; reflexivity|].
  split; vm_compute; reflexivity.
Qed.

(** ** The field mapper *)

(** C3. The field mapper looks up the text the pattern matched, not the
    column that matched.  With the header [Citywide, City] the first column
    matching the pattern of Mailing City is column 0, yet the field resolves
    to column 1; with the header [Zip Code] the pattern of Zip matches
    column 0, yet the mapper raises [ValueError]. *)
Theorem getFieldsIndxs_looks_up_matched_text :
  (Re.match_ (field_pattern "Mailing City") "Citywide" = Some "City"
   ∧ ∃ idxs, getFieldsIndxs ["Citywide"; "City"] create_data_fields = Ok idxs
             ∧ idxs !! hdr "Mailing City" = Some (PyInt 1))
  ∧ (Re.match_ (field_pattern "Zip") "Zip Code" = Some "Zip"
     ∧ getFieldsIndxs ["Zip Code"] create_data_fields = Err ValueError).
Proof.
  split; (split; [vm_compute; reflexivity|]).
  - eexists. split; vm_compute; reflexivity.
  - vm_compute; reflexivity.
Qed.

(** Where no column matches, the mapper yields the marker [''] and the
    decoder puts the empty string in the record. *)
Lemma scan_cols_not_found (pattern : Re.pattern) (data_cols cols : list string) :
  data_cols ≠ [] →
  Forall (λ col, Re.match_ pattern col = None) cols →
  scan_cols pattern data_cols cols = Ok (PyStr "").
Proof.
  intros Hne. induction 1 as [|col cols Hcol _ IH]; cbn.
  - by destruct data_cols.
  - by rewrite Hcol.
Qed.

Lemma getFieldValuesFromLine_not_found (dec : string → list N)
    (line : list string) (field_indxs : list pyval) (asciiRow : list string) :
  getFieldValuesFromLine_loop dec line (PyStr "" :: field_indxs) asciiRow
  = getFieldValuesFromLine_loop dec line field_indxs (asciiRow ++ [""]).
Proof. reflexivity. Qed.

(** ** The Ontario/Quebec route *)

(** C4. The Ontario/Quebec pattern is an alternation whose first branch is
    the bare word ON: a city text with ON and no postal code matches it, and
    only through it is the sample record classified as Canada, while the
    same text with QC does not match. *)
Theorem ontario_abbreviation_alone_matches :
  Re.search ontario_quebec_abbv_pattern "WINDSOR ON" = true
  ∧ Re.search ontario_quebec_abbv_pattern "GATINEAU QC" = false
  ∧ Re.search ontario_quebec_abbv_pattern "GATINEAU QC J8T" = true
  ∧ Re.search canada_zip_pattern "WINDSOR ON" = false
  ∧ Re.search canada_major_cities_pattern "12 RUE PRINCIPALE" = false
  ∧ Re.search canada_prov_pattern "WINDSOR ON" = false
  ∧ ∃ st,
      createRecordsDict
        [sample_record "JEAN ROY" "12 RUE PRINCIPALE" "" "WINDSOR ON" "" "FO"] "A"
      = Ok (st, RecordsDict [] [0] [] [])
      ∧ get_field st 0 addrtype_idx = Ok "CAN".
Proof.
  do 6 (split; [vm_compute; reflexivity|]).
  eexists. split; vm_compute; reflexivity.
Qed.

(** ** Records in the store *)

Lemma get_field_Ok (st : store) (r j : nat) (x : string) :
  get_field st r j = Ok x ↔ field st r j = Some x.
Proof.
  unfold get_field, field, py_get.
  destruct (st !! r) as [row|]; cbn; [|split; discriminate].
  destruct (row !! j); cbn; split; congruence.
Qed.

Lemma canonical_lookup (st : store) (r : nat) :
  canonical st → r < length st → ∃ row, st !! r = Some row ∧ length row = 26.
Proof.
  intros Hst Hr. destruct (lookup_lt_is_Some_2 st r Hr) as [row Hrow].
  exists row. split; [done|].
  by apply (Forall_lookup_1 _ _ _ _ Hst Hrow).
Qed.

Lemma field_total (st : store) (r j : nat) :
  canonical st → r < length st → j < 26 → ∃ x, field st r j = Some x.
Proof.
  intros Hst Hr Hj. destruct (canonical_lookup st r Hst Hr) as (row & Hrow & Hlen).
  unfold field. rewrite Hrow. cbn.
  apply lookup_lt_is_Some_2. lia.
Qed.

Lemma set_field_inv (st st' : store) (r j : nat) (v : string) :
  set_field st r j v = Ok st' →
  ∃ row, st !! r = Some row ∧ j < length row ∧ st' = <[r := <[j := v]> row]> st.
Proof.
  unfold set_field, py_get.
  destruct (st !! r) as [row|]; [|discriminate].
  rewrite bind_Ok. intros H. bind_in H as row' Hset.
  apply py_set_inv in Hset as [Hj ->]. injection H as <-. eauto.
Qed.

Lemma set_field_total (st : store) (r j : nat) (v : string) :
  canonical st → r < length st → j < 26 → ∃ st', set_field st r j v = Ok st'.
Proof.
  intros Hst Hr Hj. destruct (canonical_lookup st r Hst Hr) as (row & Hrow & Hlen).
  unfold set_field, py_get. rewrite Hrow, bind_Ok, py_set_lt by lia. eauto.
Qed.

Lemma set_field_length (st st' : store) (r j : nat) (v : string) :
  set_field st r j v = Ok st' → length st' = length st.
Proof.
  intros H. apply set_field_inv in H as (row & _ & _ & ->).
  apply length_insert.
Qed.

Lemma set_field_canonical (st st' : store) (r j : nat) (v : string) :
  canonical st → set_field st r j v = Ok st' → canonical st'.
Proof.
  intros Hst H. apply set_field_inv in H as (row & Hrow & _ & ->).
  apply Forall_insert; [done|].
  rewrite length_insert. by apply (Forall_lookup_1 _ _ _ _ Hst Hrow).
Qed.

(** A write is read back, and leaves every other field of every record as
    it was. *)
Lemma set_field_eq (st st' : store) (r j : nat) (v : string) :
  set_field st r j v = Ok st' → field st' r j = Some v.
Proof.
  intros H. apply set_field_inv in H as (row & Hrow & Hj & ->).
  unfold field. rewrite list_lookup_insert_eq by by eapply lookup_lt_Some.
  cbn. by apply list_lookup_insert_eq.
Qed.

Lemma set_field_ne (st st' : store) (r j : nat) (v : string) (r' j' : nat) :
  set_field st r j v = Ok st' → r' ≠ r ∨ j' ≠ j → field st' r' j' = field st r' j'.
Proof.
  intros H Hne. apply set_field_inv in H as (row & Hrow & Hj & ->).
  unfold field. destruct (decide (r' = r)) as [->|Hr].
  - rewrite list_lookup_insert_eq by by eapply lookup_lt_Some.
    rewrite Hrow. cbn. apply list_lookup_insert_ne. intros ->. by destruct Hne.
  - by rewrite list_lookup_insert_ne.
Qed.

(** A write past the address fields leaves the address lines as they were. *)
Lemma set_field_addr_lines (st st' : store) (r j : nat) (v : string) (r' : nat) :
  set_field st r j v = Ok st' → addr8_idx < j → addr_lines st' r' = addr_lines st r'.
Proof.
  intros H Hlt. apply set_field_inv in H as (row & Hrow & Hj & ->).
  unfold addr_lines, addr8_idx, addr1_idx in *.
  destruct (decide (r' = r)) as [->|Hr].
  - rewrite list_lookup_insert_eq by by eapply lookup_lt_Some.
    rewrite Hrow. cbn. f_equal. f_equal. unfold py_slice.
    rewrite drop_insert_ge, take_insert_ge by lia. done.
  - by rewrite list_lookup_insert_ne.
Qed.

(** ** The loop of the classifier *)

Lemma foreign_state_set_field (st st' : store) (r j : nat) (v : string) (r' : nat) :
  set_field st r j v = Ok st' → j ≠ state_idx →
  foreign_state st' r' ↔ foreign_state st r'.
Proof.
  intros H Hj. unfold foreign_state.
  rewrite (set_field_ne _ _ _ _ _ r' state_idx H); [done|]. right. congruence.
Qed.

(** The loop succeeds on canonical records.  It sends the records marked
    foreign to [foreignData] and the others to the DOM list, each in the
    order of the input; it writes only LetterCode, Zip and AddressType; and
    it leaves a foreign record with a blank Zip. *)
Lemma createRecordsDict_loop_spec (letterCode : string) (recordsList : list nat) :
  ∀ (st : store) (foreignData : list nat) (d : records_dict),
    canonical st →
    Forall (λ r, r < length st) recordsList →
    ∃ st',
      createRecordsDict_loop letterCode recordsList st foreignData d
      = Ok (st', foreignData ++ filter (foreign_state st) recordsList,
            RecordsDict (MEX d) (CAN d) (FGN d)
              (DOM d ++ filter (λ r, ¬ foreign_state st r) recordsList))
      ∧ canonical st'
      ∧ length st' = length st
      ∧ (∀ r j, j ≠ lettercode_idx → j ≠ zip_idx → j ≠ addrtype_idx →
                field st' r j = field st r j)
      ∧ (∀ r, addr_lines st' r = addr_lines st r)
      ∧ (∀ r, foreign_state st r →
              r ∈ recordsList ∨ field st r zip_idx = Some "" →
              field st' r zip_idx = Some "").
Proof.
  induction recordsList as [|a refs IH]; intros st fd d Hst Hrefs.
  - exists st. cbn [createRecordsDict_loop]. rewrite !filter_nil, !app_nil_r.
    destruct d. repeat split; try done.
    intros r _ [Hin|Hz]; [by apply elem_of_nil in Hin | done].
  - apply Forall_cons in Hrefs as [Ha Hrefs].
    cbn [createRecordsDict_loop].
    destruct (set_field_total st a lettercode_idx letterCode Hst Ha) as [st1 H1];
      [unfold lettercode_idx; lia|].
    rewrite H1, bind_Ok.
    pose proof (set_field_canonical _ _ _ _ _ Hst H1) as Hst1.
    pose proof (set_field_length _ _ _ _ _ H1) as Hlen1.
    destruct (field_total st1 a state_idx Hst1) as [state Hstate];
      [lia | unfold state_idx; lia |].
    rewrite (proj2 (get_field_Ok _ _ _ _) Hstate), bind_Ok.
    assert (field st a state_idx = Some state) as Hstate0.
    { rewrite <- Hstate. symmetry. apply (set_field_ne _ _ _ _ _ _ _ H1).
      right. discriminate. }
    destruct (String.eqb_spec state "FO") as [->|Hne].
    + (* marked foreign *)
      destruct (set_field_total st1 a zip_idx "" Hst1) as [st2 H2];
        [lia | unfold zip_idx; lia |].
      rewrite H2, bind_Ok.
      pose proof (set_field_canonical _ _ _ _ _ Hst1 H2) as Hst2.
      pose proof (set_field_length _ _ _ _ _ H2) as Hlen2.
      destruct (IH st2 (fd ++ [a]) d Hst2) as (st' & Hrun & Hc & Hl & Hf & Ha' & Hz).
      { eapply Forall_impl; [exact Hrefs|]. cbn. lia. }
      assert (∀ r, foreign_state st2 r ↔ foreign_state st r) as Hfs.
      { intros r. rewrite (foreign_state_set_field _ _ _ _ _ r H2) by discriminate.
        apply (foreign_state_set_field _ _ _ _ _ r H1). discriminate. }
      exists st'. rewrite Hrun.
      rewrite (filter_cons_True (foreign_state st)) by exact Hstate0.
      rewrite (filter_cons_False (λ r, ¬ foreign_state st r))
        by (intros Hn; by apply Hn).
      rewrite (list_filter_iff _ _ refs Hfs).
      rewrite (list_filter_iff (λ r, ¬ foreign_state st2 r)
                 (λ r, ¬ foreign_state st r) refs)
        by (intros r; by rewrite Hfs).
      rewrite <- app_assoc. split; [done|].
      split; [done|]. split; [lia|]. split; [|split].
      * intros r j Hj1 Hj2 Hj3. rewrite Hf by done.
        rewrite (set_field_ne _ _ _ _ _ r j H2) by (by right).
        apply (set_field_ne _ _ _ _ _ r j H1). by right.
      * intros r. rewrite Ha'.
        rewrite (set_field_addr_lines _ _ _ _ _ r H2) by (unfold addr8_idx, zip_idx; lia).
        apply (set_field_addr_lines _ _ _ _ _ r H1). unfold addr8_idx, lettercode_idx; lia.
      * intros r Hr Hcase. apply Hz; [by apply Hfs|].
        destruct (decide (r = a)) as [->|Hra].
        { right. apply (set_field_eq _ _ _ _ _ H2). }
        destruct Hcase as [Hin|Hzip].
        { apply elem_of_cons in Hin as [?|Hin]; [done|by left]. }
        right. rewrite (set_field_ne _ _ _ _ _ r zip_idx H2) by (by left).
        rewrite (set_field_ne _ _ _ _ _ r zip_idx H1) by (by left). done.
    + (* domestic *)
      destruct (field_total st1 a zip_idx Hst1) as [zip Hzip];
        [lia | unfold zip_idx; lia |].
      rewrite (proj2 (get_field_Ok _ _ _ _) Hzip), bind_Ok. cbv zeta.
      destruct (set_field_total st1 a zip_idx (normalizeZip zip) Hst1) as [st2 H2];
        [lia | unfold zip_idx; lia |].
      rewrite H2, bind_Ok.
      pose proof (set_field_canonical _ _ _ _ _ Hst1 H2) as Hst2.
      pose proof (set_field_length _ _ _ _ _ H2) as Hlen2.
      destruct (set_field_total st2 a addrtype_idx "DOM" Hst2) as [st3 H3];
        [lia | unfold addrtype_idx; lia |].
      rewrite H3, bind_Ok.
      pose proof (set_field_canonical _ _ _ _ _ Hst2 H3) as Hst3.
      pose proof (set_field_length _ _ _ _ _ H3) as Hlen3.
      destruct (IH st3 fd (RecordsDict (MEX d) (CAN d) (FGN d) (DOM d ++ [a])) Hst3)
        as (st' & Hrun & Hc & Hl & Hf & Ha' & Hz).
      { eapply Forall_impl; [exact Hrefs|]. cbn. lia. }
      assert (∀ r, foreign_state st3 r ↔ foreign_state st r) as Hfs.
      { intros r. rewrite (foreign_state_set_field _ _ _ _ _ r H3) by discriminate.
        rewrite (foreign_state_set_field _ _ _ _ _ r H2) by discriminate.
        apply (foreign_state_set_field _ _ _ _ _ r H1). discriminate. }
      assert (¬ foreign_state st a) as Hna.
      { unfold foreign_state. rewrite Hstate0. congruence. }
      exists st'. rewrite Hrun. cbn [MEX CAN FGN DOM].
      rewrite (filter_cons_False (foreign_state st)) by exact Hna.
      rewrite (filter_cons_True (λ r, ¬ foreign_state st r)) by exact Hna.
      rewrite (list_filter_iff _ _ refs Hfs).
      rewrite (list_filter_iff (λ r, ¬ foreign_state st3 r)
                 (λ r, ¬ foreign_state st r) refs)
        by (intros r; by rewrite Hfs).
      rewrite <- app_assoc. split; [done|].
      split; [done|]. split; [lia|]. split; [|split].
      * intros r j Hj1 Hj2 Hj3. rewrite Hf by done.
        rewrite (set_field_ne _ _ _ _ _ r j H3) by (by right).
        rewrite (set_field_ne _ _ _ _ _ r j H2) by (by right).
        apply (set_field_ne _ _ _ _ _ r j H1). by right.
      * intros r. rewrite Ha'.
        rewrite (set_field_addr_lines _ _ _ _ _ r H3) by (unfold addr8_idx, addrtype_idx; lia).
        rewrite (set_field_addr_lines _ _ _ _ _ r H2) by (unfold addr8_idx, zip_idx; lia).
        apply (set_field_addr_lines _ _ _ _ _ r H1). unfold addr8_idx, lettercode_idx; lia.
      * intros r Hr Hcase. apply Hz; [by apply Hfs|].
        assert (r ≠ a) as Hra by (intros ->; done).
        destruct Hcase as [Hin|Hzip'].
        { apply elem_of_cons in Hin as [?|Hin]; [done|by left]. }
        right. rewrite (set_field_ne _ _ _ _ _ r zip_idx H3) by (by left).
        rewrite (set_field_ne _ _ _ _ _ r zip_idx H2) by (by left).
        rewrite (set_field_ne _ _ _ _ _ r zip_idx H1) by (by left). done.
Qed.

(** ** The loop of the country heuristic *)

Lemma sortForeign_loop_cons (record : nat) (l : list nat) (st : store)
    (d : records_dict) :
  sortForeign_loop (record :: l) st d
  = (row ← py_get st record;
     last_addr_field ←
       py_item (no_blanks (py_slice addr1_idx (addr8_idx + 1) row)) (-1);
     record_city ← py_get row city_idx;
     st1 ← set_field st record addrtype_idx
             (destination d record record_city last_addr_field).1;
     sortForeign_loop l st1 (destination d record record_city last_addr_field).2).
Proof.
  cbn [sortForeign_loop]. unfold destination.
  destruct (py_get st record) as [row|]; [|done]. rewrite !bind_Ok. cbv zeta.
  destruct (py_item _ _) as [last|]; [|done]. rewrite !bind_Ok.
  destruct (py_get row city_idx) as [city|]; [|done]. rewrite !bind_Ok.
  destruct (is_canada city last); [done|]. by destruct (is_mexico city).
Qed.

Lemma destination_spec (d : records_dict) (record : nat) (city last : string) :
  DOM (destination d record city last).2 = DOM d
  ∧ MEX (destination d record city last).2
      ++ CAN (destination d record city last).2
      ++ FGN (destination d record city last).2
    ≡ₚ (MEX d ++ CAN d ++ FGN d) ++ [record].
Proof.
  unfold destination.
  destruct (is_canada city last); [|destruct (is_mexico city)];
    cbn [snd MEX CAN FGN DOM]; (split; [done|]).
  - rewrite <- !app_assoc. do 2 apply Permutation_app_head.
    apply Permutation_app_comm.
  - rewrite <- !app_assoc. apply Permutation_app_head.
    rewrite (app_assoc (CAN d) (FGN d) [record]). apply Permutation_app_comm.
  - by rewrite <- !app_assoc.
Qed.

Lemma py_item_last_nil : py_item ([] : list string) (-1) = Err IndexError.
Proof. reflexivity. Qed.

Lemma py_item_last_total (l : list string) :
  l ≠ [] → ∃ x, py_item l (-1) = Ok x.
Proof.
  intros Hl. destruct (exists_last Hl) as (l' & x & ->).
  exists x. apply (py_item_neg l' [] x).
Qed.

(** Whenever the loop completes, it has appended each record of its input
    to one of the three foreign lists, has left the DOM list alone, and has
    written nothing but AddressType. *)
Lemma sortForeign_loop_inv (l : list nat) :
  ∀ (st st' : store) (d d' : records_dict),
    sortForeign_loop l st d = Ok (st', d') →
    DOM d' = DOM d
    ∧ MEX d' ++ CAN d' ++ FGN d' ≡ₚ (MEX d ++ CAN d ++ FGN d) ++ l
    ∧ (∀ r j, j ≠ addrtype_idx → field st' r j = field st r j).
Proof.
  induction l as [|record l IH]; intros st st' d d' H.
  - cbn in H. injection H as <- <-. by rewrite app_nil_r.
  - rewrite sortForeign_loop_cons in H.
    bind_in H as row Hrow. bind_in H as last Hlast. bind_in H as city Hcity.
    bind_in H as st1 Hset.
    destruct (IH _ _ _ _ H) as (Hdom & Hperm & Hf).
    destruct (destination_spec d record city last) as [Hdom1 Hperm1].
    split; [congruence|]. split.
    + rewrite Hperm, Hperm1. by rewrite <- app_assoc.
    + intros r j Hj. rewrite Hf by done.
      apply (set_field_ne _ _ _ _ _ r j Hset). by right.
Qed.

(** The loop completes when every record it visits has an address line in
    use. *)
Lemma sortForeign_loop_total (l : list nat) :
  ∀ (st : store) (d : records_dict),
    canonical st →
    Forall (λ r, r < length st) l →
    Forall (λ r, ∃ lines, addr_lines st r = Some lines ∧ lines ≠ []) l →
    ∃ st' d', sortForeign_loop l st d = Ok (st', d').
Proof.
  induction l as [|record l IH]; intros st d Hst Hl Hpop.
  - by exists st, d.
  - apply Forall_cons in Hl as [Hr Hl]. apply Forall_cons in Hpop as [Hp Hpop].
    destruct Hp as (lines & Hlines & Hne).
    destruct (canonical_lookup st record Hst Hr) as (row & Hrow & Hlen).
    rewrite sortForeign_loop_cons.
    rewrite (proj2 (py_get_Ok _ _ _) Hrow), bind_Ok.
    assert (no_blanks (py_slice addr1_idx (addr8_idx + 1) row) = lines) as ->.
    { unfold addr_lines in Hlines. rewrite Hrow in Hlines. by injection Hlines. }
    destruct (py_item_last_total lines Hne) as [last ->]. rewrite bind_Ok.
    destruct (py_get_lt row city_idx) as (city & -> & _);
      [unfold city_idx; lia|]. rewrite bind_Ok.
    destruct (set_field_total st record addrtype_idx
                (destination d record city last).1 Hst Hr) as [st1 Hset];
      [unfold addrtype_idx; lia|].
    rewrite Hset, bind_Ok.
    apply IH.
    + by eapply set_field_canonical.
    + rewrite (set_field_length _ _ _ _ _ Hset). done.
    + eapply Forall_impl; [exact Hpop|]. cbn. intros r (ls & Hls & Hn).
      exists ls. split; [|done].
      rewrite (set_field_addr_lines _ _ _ _ _ r Hset); [done|].
      unfold addr8_idx, addrtype_idx. lia.
Qed.

(** The loop raises [IndexError] when a record it visits has no address
    line in use. *)
Lemma sortForeign_loop_fails (l : list nat) :
  ∀ (st : store) (d : records_dict) (r : nat),
    canonical st →
    Forall (λ r, r < length st) l →
    r ∈ l →
    addr_lines st r = Some [] →
    sortForeign_loop l st d = Err IndexError.
Proof.
  induction l as [|record l IH]; intros st d r Hst Hl Hin Hbad.
  - by apply elem_of_nil in Hin.
  - apply Forall_cons in Hl as [Hr Hl].
    destruct (canonical_lookup st record Hst Hr) as (row & Hrow & Hlen).
    rewrite sortForeign_loop_cons.
    rewrite (proj2 (py_get_Ok _ _ _) Hrow), bind_Ok.
    destruct (decide (no_blanks (py_slice addr1_idx (addr8_idx + 1) row) = []))
      as [Hnil|Hne].
    { rewrite Hnil. reflexivity. }
    destruct (py_item_last_total _ Hne) as [last ->]. rewrite bind_Ok.
    destruct (py_get_lt row city_idx) as (city & -> & _);
      [unfold city_idx; lia|]. rewrite bind_Ok.
    destruct (set_field_total st record addrtype_idx
                (destination d record city last).1 Hst Hr) as [st1 Hset];
      [unfold addrtype_idx; lia|].
    rewrite Hset, bind_Ok.
    apply (IH st1 _ r).
    + by eapply set_field_canonical.
    + rewrite (set_field_length _ _ _ _ _ Hset). done.
    + apply elem_of_cons in Hin as [->|Hin]; [|done].
      exfalso. apply Hne. unfold addr_lines in Hbad. rewrite Hrow in Hbad.
      by injection Hbad.
    + rewrite (set_field_addr_lines _ _ _ _ _ r Hset); [done|].
      unfold addr8_idx, addrtype_idx. lia.
Qed.

(** ** Sorting the foreign records *)

Lemma insert_by_key_perm (x : string * nat) (l : list (string * nat)) :
  insert_by_key x l ≡ₚ x :: l.
Proof.
  induction l as [|y l IH]; cbn [insert_by_key]; [done|].
  destruct (Str.ltb y.1 x.1); [|done].
  rewrite IH. apply Permutation_swap.
Qed.

Lemma sort_by_key_perm (l : list (string * nat)) : sort_by_key l ≡ₚ l.
Proof.
  induction l as [|x l IH]; [done|].
  unfold sort_by_key in *. cbn [foldr].
  by rewrite insert_by_key_perm, IH.
Qed.

Lemma city_keys_snd (st : store) (foreignData : list nat) :
  ∀ keyed, city_keys st foreignData = Ok keyed → map snd keyed = foreignData.
Proof.
  induction foreignData as [|r l IH]; intros keyed H; cbn [city_keys] in H.
  - by injection H as <-.
  - bind_in H as key Hkey. bind_in H as rest Hrest. injection H as <-.
    cbn. by rewrite (IH rest).
Qed.

Lemma city_keys_total (st : store) (foreignData : list nat) :
  canonical st →
  Forall (λ r, r < length st) foreignData →
  ∃ keyed, city_keys st foreignData = Ok keyed.
Proof.
  intros Hst. induction 1 as [|r l Hr _ [rest IH]]; cbn [city_keys].
  - by eexists.
  - destruct (field_total st r city_idx Hst Hr) as [key Hkey];
      [unfold city_idx; lia|].
    rewrite (proj2 (get_field_Ok _ _ _ _) Hkey), bind_Ok, IH, bind_Ok.
    by eexists.
Qed.

(** [sortForeignByCountry] visits the foreign records, each once. *)
Lemma sorted_foreign_perm (st : store) (foreignData : list nat)
    (keyed : list (string * nat)) :
  city_keys st foreignData = Ok keyed →
  map snd (sort_by_key keyed) ≡ₚ foreignData.
Proof.
  intros H. rewrite sort_by_key_perm. by rewrite (city_keys_snd _ _ _ H).
Qed.

(** ** The classifier as a whole *)

(** Whenever the first loop completes, it has appended each record of its
    input either to [foreignData] or to the DOM list. *)
Lemma createRecordsDict_loop_inv (letterCode : string) (recordsList : list nat) :
  ∀ (st st' : store) (fd fd' : list nat) (d d' : records_dict),
    createRecordsDict_loop letterCode recordsList st fd d = Ok (st', fd', d') →
    MEX d' = MEX d ∧ CAN d' = CAN d ∧ FGN d' = FGN d
    ∧ fd' ++ DOM d' ≡ₚ (fd ++ DOM d) ++ recordsList.
Proof.
  induction recordsList as [|a refs IH]; intros st st' fd fd' d d' H;
    cbn [createRecordsDict_loop] in H.
  - injection H as <- <- <-. by rewrite app_nil_r.
  - bind_in H as st1 H1. bind_in H as state Hstate.
    destruct (String.eqb state "FO").
    + bind_in H as st2 H2.
      destruct (IH _ _ _ _ _ _ H) as (-> & -> & -> & Hperm).
      do 3 (split; [done|]). rewrite Hperm.
      rewrite <- !app_assoc. apply Permutation_app_head.
      exact (Permutation_middle (DOM d) refs a).
    + bind_in H as zip Hzip. cbv zeta in H.
      bind_in H as st2 H2. bind_in H as st3 H3.
      destruct (IH _ _ _ _ _ _ H) as (-> & -> & -> & Hperm).
      cbn [MEX CAN FGN DOM] in *.
      do 3 (split; [done|]). rewrite Hperm. by rewrite <- !app_assoc.
Qed.

Lemma createRecordsDict_in_inv (st st' : store) (recordsList : list nat)
    (letterCode : string) (d : records_dict) :
  createRecordsDict_in st recordsList letterCode = Ok (st', d) →
  DOM d ++ CAN d ++ MEX d ++ FGN d ≡ₚ recordsList.
Proof.
  unfold createRecordsDict_in. intros H.
  bind_in H as res Hloop. destruct res as [[st1 fd] d1].
  apply createRecordsDict_loop_inv in Hloop as (Hm & Hc & Hf & Hperm).
  cbn [MEX CAN FGN DOM] in *.
  unfold sortForeignByCountry in H. bind_in H as keyed Hkeys. cbv zeta in H.
  apply sortForeign_loop_inv in H as (Hdom & Hperm2 & _).
  rewrite Hm, Hc, Hf in Hperm2. cbn [app] in Hperm2.
  rewrite (sorted_foreign_perm _ _ _ Hkeys) in Hperm2.
  rewrite Hdom.
  rewrite (Permutation_app_swap_app (CAN d) (MEX d) (FGN d)), Hperm2.
  rewrite Permutation_app_comm. exact Hperm.
Qed.

(** The classifier completes on canonical records whose foreign ones each
    have an address line in use. *)
Lemma createRecordsDict_in_total (st : store) (recordsList : list nat)
    (letterCode : string) :
  canonical st →
  Forall (λ r, r < length st) recordsList →
  (∀ r, foreign_state st r → ∃ lines, addr_lines st r = Some lines ∧ lines ≠ []) →
  ∃ st' d, createRecordsDict_in st recordsList letterCode = Ok (st', d).
Proof.
  intros Hst Hrefs Hpop. unfold createRecordsDict_in.
  destruct (createRecordsDict_loop_spec letterCode recordsList st []
              (RecordsDict [] [] [] []) Hst Hrefs)
    as (st1 & Hrun & Hst1 & Hlen & Hf & Haddr & Hz).
  rewrite Hrun, bind_Ok. cbn [app].
  assert (Forall (λ r, r < length st1) (filter (foreign_state st) recordsList))
    as Hvalid.
  { apply Forall_forall. intros r Hr. apply list_elem_of_filter in Hr as [_ Hr].
    rewrite Hlen. by apply (proj1 (Forall_forall _ _) Hrefs). }
  unfold sortForeignByCountry.
  destruct (city_keys_total st1 _ Hst1 Hvalid) as [keyed Hkeys].
  rewrite Hkeys, bind_Ok. cbv zeta.
  pose proof (sorted_foreign_perm _ _ _ Hkeys) as Hperm.
  apply sortForeign_loop_total; [done| |].
  - by rewrite Hperm.
  - rewrite Hperm. apply Forall_forall. intros r Hr.
    apply list_elem_of_filter in Hr as [Hfs _].
    rewrite Haddr. by apply Hpop.
Qed.

Lemma seq_lt_length (n : nat) : Forall (λ r, r < n) (seq 0 n).
Proof. apply Forall_forall. intros r Hr. apply elem_of_seq in Hr. lia. Qed.

Lemma foreign_state_lt (st : store) (r : nat) :
  foreign_state st r → r < length st.
Proof.
  unfold foreign_state, field. intros H.
  destruct (st !! r) as [row|] eqn:Hrow; [|done].
  by apply lookup_lt_Some in Hrow.
Qed.

(** C5. Whenever the classifier returns, the four lists DOM, CAN, MEX and
    FGN together hold each record of the input exactly once, so that their
    lengths add up to the number of records; and it does return on
    canonical records whose foreign ones each have a name or address line
    in use. *)
Theorem createRecordsDict_partition (recordsList : list (list string))
    (letterCode : string) :
  (∀ st d, createRecordsDict recordsList letterCode = Ok (st, d) →
     DOM d ++ CAN d ++ MEX d ++ FGN d ≡ₚ seq 0 (length recordsList)
     ∧ NoDup (DOM d ++ CAN d ++ MEX d ++ FGN d)
     ∧ length (DOM d) + length (CAN d) + length (MEX d) + length (FGN d)
       = length recordsList)
  ∧ (canonical recordsList →
     (∀ r, foreign_state recordsList r →
           ∃ lines, addr_lines recordsList r = Some lines ∧ lines ≠ []) →
     ∃ st d, createRecordsDict recordsList letterCode = Ok (st, d)).
Proof.
  split.
  - intros st d H. apply createRecordsDict_in_inv in H.
    split; [done|]. split.
    + rewrite H. apply NoDup_seq.
    + apply Permutation_length in H.
      rewrite !length_app, length_seq in H. lia.
  - intros Hst Hpop. apply createRecordsDict_in_total; [done| |done].
    apply seq_lt_length.
Qed.

Lemma createRecordsDict_partition_witness :
  ∃ st d, createRecordsDict sample_batch "A1" = Ok (st, d)
    ∧ DOM d ++ CAN d ++ MEX d ++ FGN d ≡ₚ [0; 1; 2]
    ∧ length (DOM d) + length (CAN d) + length (MEX d) + length (FGN d) = 3.
Proof.
  destruct (createRecordsDict_partition sample_batch "A1") as [Hinv Htot].
  destruct Htot as (st & d & H).
  - unfold canonical. repeat constructor.
  - intros r Hr. pose proof (foreign_state_lt _ _ Hr) as Hlt. cbn in Hlt.
    destruct r as [|[|[|r]]]; [| | |lia]; vm_compute in Hr; try discriminate;
      eexists; (split; [vm_compute; reflexivity | discriminate]).
  - exists st, d. split; [done|].
    destruct (Hinv st d H) as (Hperm & _ & Hlen). done.
Defined.

(** C6. On canonical records, a record whose Mailing State is FO leaves
    the first loop of the classifier in the foreign list, not in the DOM
    list, with a blank Zip; and whenever the classifier returns, the record
    is in one of the three foreign lists, not in the DOM list, and its Zip
    is blank. *)
Theorem createRecordsDict_foreign_state (recordsList : list (list string))
    (letterCode : string) (r : nat) :
  canonical recordsList →
  foreign_state recordsList r →
  (∃ st1 foreignData d1,
     createRecordsDict_loop letterCode (seq 0 (length recordsList))
       recordsList [] (RecordsDict [] [] [] [])
     = Ok (st1, foreignData, d1)
     ∧ r ∈ foreignData ∧ (r ∉ DOM d1) ∧ field st1 r zip_idx = Some "")
  ∧ (∀ st d, createRecordsDict recordsList letterCode = Ok (st, d) →
       (r ∉ DOM d) ∧ r ∈ MEX d ++ CAN d ++ FGN d
       ∧ field st r zip_idx = Some "").
Proof.
  intros Hst Hfo.
  pose proof (foreign_state_lt _ _ Hfo) as Hlt.
  destruct (createRecordsDict_loop_spec letterCode (seq 0 (length recordsList))
              recordsList [] (RecordsDict [] [] [] []) Hst
              (seq_lt_length _))
    as (st1 & Hrun & Hst1 & Hlen & Hf & Haddr & Hz).
  cbn [app MEX CAN FGN DOM] in Hrun.
  assert (r ∈ seq 0 (length recordsList)) as Hin by (apply elem_of_seq; lia).
  assert (r ∈ filter (foreign_state recordsList) (seq 0 (length recordsList)))
    as Hfd by (by apply list_elem_of_filter).
  assert (r ∉ filter (λ r, ¬ foreign_state recordsList r)
                (seq 0 (length recordsList))) as Hdom.
  { intros Hr. apply list_elem_of_filter in Hr as [Hn _]. by apply Hn. }
  assert (field st1 r zip_idx = Some "") as Hzip by (apply Hz; [done|by left]).
  split.
  - by eexists _, _, _.
  - intros st d H. unfold createRecordsDict, createRecordsDict_in in H.
    rewrite Hrun, bind_Ok in H.
    unfold sortForeignByCountry in H. bind_in H as keyed Hkeys. cbv zeta in H.
    apply sortForeign_loop_inv in H as (Hd & Hperm & Hframe).
    cbn [app MEX CAN FGN DOM] in Hd, Hperm.
    rewrite (sorted_foreign_perm _ _ _ Hkeys) in Hperm.
    split; [by rewrite Hd|]. split; [by rewrite Hperm|].
    rewrite Hframe by discriminate. done.
Qed.

Lemma createRecordsDict_foreign_state_witness :
  ∃ st d, createRecordsDict sample_batch "A1" = Ok (st, d)
    ∧ (1 ∉ DOM d) ∧ 1 ∈ MEX d ++ CAN d ++ FGN d
    ∧ field st 1 zip_idx = Some "".
Proof.
  eexists _, _. split; [vm_compute; reflexivity|].
  apply (createRecordsDict_foreign_state sample_batch "A1" 1).
  - unfold canonical. repeat constructor.
  - vm_compute. reflexivity.
  - vm_compute. reflexivity.
Defined.

(** C10. On canonical records, when a record whose Mailing State is FO has
    none of its eight name and address fields in use, the classifier
    raises [IndexError] and returns no lists at all. *)
Theorem createRecordsDict_blank_foreign_aborts (recordsList : list (list string))
    (letterCode : string) (r : nat) :
  canonical recordsList →
  foreign_state recordsList r →
  addr_lines recordsList r = Some [] →
  createRecordsDict recordsList letterCode = Err IndexError.
Proof.
  intros Hst Hfo Hbad.
  pose proof (foreign_state_lt _ _ Hfo) as Hlt.
  destruct (createRecordsDict_loop_spec letterCode (seq 0 (length recordsList))
              recordsList [] (RecordsDict [] [] [] []) Hst
              (seq_lt_length _))
    as (st1 & Hrun & Hst1 & Hlen & Hf & Haddr & Hz).
  cbn [app MEX CAN FGN DOM] in Hrun.
  unfold createRecordsDict, createRecordsDict_in. rewrite Hrun, bind_Ok.
  assert (Forall (λ r, r < length st1)
            (filter (foreign_state recordsList) (seq 0 (length recordsList))))
    as Hvalid.
  { apply Forall_forall. intros r' Hr'. apply list_elem_of_filter in Hr' as [_ Hr'].
    apply elem_of_seq in Hr'. lia. }
  unfold sortForeignByCountry.
  destruct (city_keys_total st1 _ Hst1 Hvalid) as [keyed Hkeys].
  rewrite Hkeys, bind_Ok. cbv zeta.
  pose proof (sorted_foreign_perm _ _ _ Hkeys) as Hperm.
  apply (sortForeign_loop_fails _ st1 _ r); [done| | |].
  - by rewrite Hperm.
  - rewrite Hperm. apply list_elem_of_filter. split; [done|].
    apply elem_of_seq. lia.
  - by rewrite Haddr.
Qed.

Lemma createRecordsDict_blank_foreign_aborts_witness :
  createRecordsDict sample_blank_batch "A1" = Err IndexError.
Proof.
  apply (createRecordsDict_blank_foreign_aborts sample_blank_batch "A1" 1).
  - unfold canonical. repeat constructor.
  - vm_compute. reflexivity.
  - vm_compute. reflexivity.
Defined.

(** ** The lookup of the Escheatment State *)

Lemma dict_get_Ok (d : gmap string string) (k v : string) :
  dict_get d k = Ok v ↔ d !! k = Some v.
Proof. unfold dict_get. destruct (d !! k); split; congruence. Qed.

Lemma dict_get_Err (d : gmap string string) (k : string) :
  d !! k = None → dict_get d k = Err (KeyError k).
Proof. unfold dict_get. by intros ->. Qed.

(** The rows in front of a row are no obstacle when each of them gives a
    record. *)
Lemma processXLS_loop_app (dec : string → list N) (us_dict : gmap string string)
    (field_indxs : list pyval) (pre rest : list (list string)) :
  Forall (λ l, ∃ row, processXLS_row dec us_dict field_indxs l = Ok row) pre →
  ∀ recordsList, ∃ recordsList',
    processXLS_loop dec us_dict field_indxs (pre ++ rest) recordsList
    = processXLS_loop dec us_dict field_indxs rest recordsList'.
Proof.
  induction 1 as [|l pre [row Hrow] _ IH]; intros recs.
  - by exists recs.
  - cbn [app processXLS_loop]. rewrite end_of_data_false, Hrow, bind_Ok.
    apply IH.
Qed.

(** C9. For a data row whose cells are read without error, the row fails
    exactly when the lookup table has no entry for the text of its
    Escheatment State; the failure is the [KeyError] of that text and it is
    the result of the whole table, no record being delivered; and with an
    entry in the table the row gives a record that carries the entry in
    its Escheatment State. *)
Theorem processXLSfromCSV_escheat_lookup (dec : string → list N)
    (us_dict : gmap string string) (data_fields : list (string * Re.pattern))
    (csv_hdr : list string) (field_indxs : list pyval)
    (pre post : list (list string)) (line dataRow : list string)
    (abbv : string) :
  getFieldsIndxs csv_hdr data_fields = Ok field_indxs →
  Forall (λ l, ∃ row, processXLS_row dec us_dict field_indxs l = Ok row) pre →
  getFieldValuesFromLine dec line field_indxs = Ok dataRow →
  dataRow !! escheat_idx = Some abbv →
  ((∃ e, processXLS_row dec us_dict field_indxs line = Err e)
   ↔ us_dict !! abbv = None)
  ∧ (us_dict !! abbv = None →
     processXLS_row dec us_dict field_indxs line = Err (KeyError abbv)
     ∧ processXLSfromCSV dec (csv_hdr :: pre ++ line :: post) us_dict data_fields
       = Err (KeyError abbv))
  ∧ (∀ name, us_dict !! abbv = Some name →
     ∃ row, processXLS_row dec us_dict field_indxs line = Ok row
            ∧ row !! escheat_idx = Some name).
Proof.
  intros Hidx Hpre Hrow Habbv.
  pose proof (lookup_lt_Some _ _ _ Habbv) as Hlen. unfold escheat_idx in Hlen.
  assert (us_dict !! abbv = None →
          processXLS_row dec us_dict field_indxs line = Err (KeyError abbv))
    as Hfail.
  { intros Hnone. unfold processXLS_row.
    rewrite Hrow, bind_Ok, (proj2 (py_get_Ok _ _ _) Habbv), bind_Ok.
    by rewrite (dict_get_Err _ _ Hnone). }
  assert (∀ name, us_dict !! abbv = Some name →
          ∃ row, processXLS_row dec us_dict field_indxs line = Ok row
                 ∧ row !! escheat_idx = Some name) as Hok.
  { intros name Hname. unfold processXLS_row.
    rewrite Hrow, bind_Ok, (proj2 (py_get_Ok _ _ _) Habbv), bind_Ok.
    rewrite (proj2 (dict_get_Ok _ _ _) Hname), bind_Ok.
    rewrite py_set_lt by (unfold escheat_idx; lia). rewrite bind_Ok.
    set (row1 := <[escheat_idx := name]> dataRow).
    assert (length row1 = length dataRow) as Hlen1
      by apply length_insert.
    assert (row1 !! escheat_idx = Some name) as Hesc.
    { apply list_lookup_insert_eq. unfold escheat_idx. lia. }
    destruct (py_get_lt row1 lt_idx) as (lt & -> & _);
      [unfold lt_idx; lia|]. rewrite bind_Ok.
    destruct (String.eqb lt ""); [|by eexists].
    destruct (py_get_lt row1 company_idx) as (compNo & -> & _);
      [unfold company_idx; lia|]. rewrite bind_Ok.
    destruct (py_get_lt row1 account_idx) as (acctNo & -> & _);
      [unfold account_idx; lia|]. rewrite bind_Ok.
    rewrite py_set_lt by (unfold lt_idx; lia).
    eexists. split; [done|].
    rewrite list_lookup_insert_ne by discriminate. done. }
  split; [|split].
  - split.
    + intros [e He]. destruct (us_dict !! abbv) as [name|] eqn:Hname; [|done].
      destruct (Hok name eq_refl) as (row & Hr & _). congruence.
    + intros Hnone. eexists. by apply Hfail.
  - intros Hnone. split; [by apply Hfail|].
    cbn [processXLSfromCSV]. rewrite Hidx, bind_Ok.
    destruct (processXLS_loop_app dec us_dict field_indxs pre (line :: post)
                Hpre []) as [recs ->].
    cbn [processXLS_loop]. rewrite end_of_data_false, (Hfail Hnone). done.
  - exact Hok.
Qed.

Lemma processXLSfromCSV_escheat_lookup_witness :
  processXLSfromCSV Codec.decode_7bit sample_table_unknown create_us_dict
    create_data_fields = Err (KeyError "ZZ").
Proof.
  unfold sample_table_unknown.
  epose proof (processXLSfromCSV_escheat_lookup Codec.decode_7bit create_us_dict
                 create_data_fields sample_header _
                 [sample_row_known] [sample_row_last]
                 sample_row_unknown _ "ZZ") as H.
  edestruct H as (_ & Hfail & _).
  - vm_compute; reflexivity.
  - constructor; [|constructor]. eexists. vm_compute; reflexivity.
  - vm_compute; reflexivity.
  - vm_compute; reflexivity.
  - apply Hfail. vm_compute; reflexivity.
Defined.


(** * Further properties *)

(** ** Sanitising bytes *)

Lemma N_of_ascii_of_N (c : N) : (c < 256)%N → N_of_ascii (ascii_of_N c) = c.
Proof. apply N_ascii_embedding. Qed.

Lemma forallb_fmap {A B : Type} (f : A → B) (p : B → bool) (l : list A) :
  forallb p (map f l) = forallb (λ x, p (f x)) l.
Proof. induction l as [|x l IH]; [done|]. cbn. by rewrite IH. Qed.

Lemma forallb_pointwise {A : Type} (p q : A → bool) (l : list A) :
  (∀ x, p x = q x) → forallb p l = forallb q l.
Proof. intros H. induction l as [|x l IH]; [done|]. cbn. by rewrite H, IH. Qed.

(** [encode] fails exactly when a character is at or above the limit. *)
Lemma encode_spec (limit : N) (u : list N) :
  Codec.encode limit u
  = if forallb (λ c, (c <? limit)%N) u
    then Ok (string_of_list_ascii (map ascii_of_N u))
    else Err UnicodeEncodeError.
Proof.
  induction u as [|c u IH]; [done|].
  cbn [Codec.encode forallb map string_of_list_ascii].
  destruct (c <? limit)%N; [|done].
  rewrite IH. cbn [andb]. by destruct (forallb _ u).
Qed.

Lemma replace_thrice (u : list N) :
  Codec.replace Codec.nb_space Codec.blank
    (Codec.replace Codec.broken_bar Codec.blank
       (Codec.replace Codec.replacement Codec.blank u))
  = map replaced u.
Proof.
  unfold Codec.replace. rewrite !map_map. apply map_ext. intros c.
  unfold replaced, Codec.replacement, Codec.broken_bar, Codec.nb_space,
    Codec.blank.
  destruct (N.eqb_spec c 65533) as [->|H1]; [done|].
  destruct (N.eqb_spec c 166) as [->|H2]; [done|].
  destruct (N.eqb_spec c 160) as [->|H3]; [done|].
  done.
Qed.

Lemma replaced_encodable (c : N) : (replaced c <? 256)%N = encodable c.
Proof.
  unfold replaced, encodable, Codec.replacement.
  destruct (N.eqb_spec c 65533) as [->|H1]; [done|].
  destruct (N.eqb_spec c 166) as [->|H2]; [done|].
  destruct (N.eqb_spec c 160) as [->|H3]; [done|].
  cbn [orb]. by rewrite orb_false_r.
Qed.

Lemma decode_ascii_replace_map (s : string) :
  Codec.decode_ascii_replace s
  = map (λ b, if (N_of_ascii b <? 128)%N then N_of_ascii b
              else Codec.replacement) (list_ascii_of_string s).
Proof. induction s as [|b s IH]; [done|]. cbn. by rewrite IH. Qed.

(** The second half: decoding as [ascii] with replacement, replacing
    U+FFFD, and encoding as [ascii], which cannot fail. *)
Lemma encode_ascii_decoded (s : string) :
  Codec.encode 128
    (Codec.replace Codec.replacement Codec.blank (Codec.decode_ascii_replace s))
  = Ok (string_of_list_ascii
          (map (λ b, sanitized (N_of_ascii b)) (list_ascii_of_string s))).
Proof.
  rewrite encode_spec, decode_ascii_replace_map. unfold Codec.replace.
  rewrite !map_map, forallb_fmap.
  assert (∀ b : ascii,
            ((if ((if (N_of_ascii b <? 128)%N then N_of_ascii b
                   else Codec.replacement) =? Codec.replacement)%N
              then Codec.blank
              else if (N_of_ascii b <? 128)%N then N_of_ascii b
                   else Codec.replacement) <? 128)%N = true
            ∧ ascii_of_N
                (if ((if (N_of_ascii b <? 128)%N then N_of_ascii b
                      else Codec.replacement) =? Codec.replacement)%N
                 then Codec.blank
                 else if (N_of_ascii b <? 128)%N then N_of_ascii b
                      else Codec.replacement)
              = sanitized (N_of_ascii b)) as Hb.
  { intros b. unfold sanitized, Codec.replacement, Codec.blank.
    destruct (N.ltb_spec (N_of_ascii b) 128) as [Hlt|Hge]; [|done].
    destruct (N.eqb_spec (N_of_ascii b) 65533) as [Heq|Hne]; [lia|].
    split; [by apply N.ltb_lt | done]. }
  rewrite (forallb_pointwise _ (λ _, true)) by (intros b; apply Hb).
  assert (forallb (λ _ : ascii, true) (list_ascii_of_string s) = true) as ->
    by (by induction (list_ascii_of_string s)).
  f_equal. f_equal. apply map_ext. intros b. apply Hb.
Qed.

Lemma sanitized_replaced (c : N) :
  encodable c = true →
  sanitized (N_of_ascii (ascii_of_N (replaced c))) = sanitized c.
Proof.
  intros Hc. rewrite <- replaced_encodable in Hc. apply N.ltb_lt in Hc.
  rewrite N_of_ascii_of_N by done. clear Hc.
  unfold replaced, sanitized.
  destruct (N.eqb_spec c 65533) as [Heq|H1]; [by subst|].
  destruct (N.eqb_spec c 166) as [Heq|H2]; [by subst|].
  destruct (N.eqb_spec c 160) as [Heq|H3]; [by subst|].
  done.
Qed.

(** What [replaceNonAsciiChars] computes. *)
Lemma replaceNonAsciiChars_eq (dec : string → list N) (text : string) :
  replaceNonAsciiChars dec text
  = if forallb encodable (dec text)
    then Ok (string_of_list_ascii (map sanitized (dec text)))
    else Err UnicodeEncodeError.
Proof.
  unfold replaceNonAsciiChars. cbv zeta. rewrite replace_thrice, encode_spec.
  rewrite forallb_fmap.
  rewrite (forallb_pointwise _ encodable) by (intros c; apply replaced_encodable).
  destruct (forallb encodable (dec text)) eqn:Henc; [|done].
  rewrite bind_Ok, encode_ascii_decoded.
  rewrite list_ascii_of_string_of_list_ascii, !map_map. f_equal. f_equal.
  apply map_ext_in. intros c Hc. apply sanitized_replaced.
  rewrite forallb_forall in Henc. by apply Henc.
Qed.

(** X1. [replaceNonAsciiChars] raises [UnicodeEncodeError] when the decoded
    text has a character above U+00FF other than U+FFFD; otherwise it
    returns one byte for each decoded character, the character itself when
    it is below 128 and a blank when it is not. *)
Theorem replaceNonAsciiChars_spec (dec : string → list N) (text : string) :
  replaceNonAsciiChars dec text
  = if forallb encodable (dec text)
    then Ok (string_of_list_ascii (map sanitized (dec text)))
    else Err UnicodeEncodeError.
Proof. apply replaceNonAsciiChars_eq. Qed.

Lemma sanitized_7bit (c : N) : (N_of_ascii (sanitized c) < 128)%N.
Proof.
  unfold sanitized. destruct (N.ltb_spec c 128) as [Hlt|Hge]; [|by cbn].
  rewrite N_of_ascii_of_N; lia.
Qed.

Lemma codes_string_of_list (l : list ascii) :
  codes (string_of_list_ascii l) = map N_of_ascii l.
Proof. unfold codes. by rewrite list_ascii_of_string_of_list_ascii. Qed.

Lemma length_string_of_list (l : list ascii) :
  String.length (string_of_list_ascii l) = length l.
Proof. induction l as [|c l IH]; [done|]. cbn. by rewrite IH. Qed.

(** X2. Whatever the decoder, a text that [replaceNonAsciiChars] returns
    has only bytes below 128, one for each decoded character. *)
Theorem replaceNonAsciiChars_7bit (dec : string → list N) (text out : string) :
  replaceNonAsciiChars dec text = Ok out →
  is_7bit out ∧ String.length out = length (dec text).
Proof.
  rewrite replaceNonAsciiChars_eq.
  destruct (forallb encodable (dec text)); [|discriminate].
  intros [= <-]. split.
  - unfold is_7bit. rewrite codes_string_of_list, map_map.
    apply Forall_forall. intros c Hc. apply list_elem_of_fmap in Hc as (x & -> & _).
    apply sanitized_7bit.
  - by rewrite length_string_of_list, length_map.
Qed.

Lemma replaceNonAsciiChars_7bit_witness :
  is_7bit "JOHN DOE" ∧ String.length "JOHN DOE" = length (Codec.decode_7bit "JOHN DOE").
Proof.
  apply (replaceNonAsciiChars_7bit Codec.decode_7bit "JOHN DOE" "JOHN DOE").
  vm_compute. reflexivity.
Defined.

Lemma sanitized_codes (s : string) :
  is_7bit s → string_of_list_ascii (map sanitized (codes s)) = s.
Proof.
  unfold is_7bit, codes. induction s as [|b s IH]; [done|].
  cbn [list_ascii_of_string map string_of_list_ascii]. intros H.
  apply Forall_cons in H as [Hb Hs]. rewrite (IH Hs). f_equal.
  unfold sanitized. apply N.ltb_lt in Hb. rewrite Hb. apply ascii_N_embedding.
Qed.

Lemma encodable_codes (s : string) :
  is_7bit s → forallb encodable (codes s) = true.
Proof.
  intros H. apply forallb_forall. intros c Hc.
  unfold is_7bit in H. rewrite Forall_forall in H.
  assert (c < 128)%N as Hlt by (apply H; by apply list_elem_of_In).
  unfold encodable. apply orb_true_iff. left. apply N.ltb_lt. lia.
Qed.

(** A text of bytes below 128 that the decoder reads byte by byte, as
    UTF-8 does, is returned as it is. *)
Lemma replaceNonAsciiChars_id (dec : string → list N) (text : string) :
  is_7bit text → dec text = codes text →
  replaceNonAsciiChars dec text = Ok text.
Proof.
  intros H7 Hdec. rewrite replaceNonAsciiChars_eq, Hdec.
  by rewrite (encodable_codes _ H7), (sanitized_codes _ H7).
Qed.

Lemma decode_7bit_codes (s : string) :
  is_7bit s → Codec.decode_7bit s = codes s.
Proof.
  unfold Codec.decode_7bit, is_7bit, codes.
  induction s as [|b s IH]; [done|].
  cbn [list_ascii_of_string map Codec.decode_ascii_replace]. intros H.
  apply Forall_cons in H as [Hb Hs]. rewrite (IH Hs).
  apply N.ltb_lt in Hb. by rewrite Hb.
Qed.

(** X3. A text of bytes below 128 that the decoder reads byte by byte, as
    UTF-8 does, passes through [replaceNonAsciiChars] unchanged. *)
Theorem replaceNonAsciiChars_ascii_unchanged (dec : string → list N)
    (text : string) :
  is_7bit text → dec text = codes text →
  replaceNonAsciiChars dec text = Ok text.
Proof. apply replaceNonAsciiChars_id. Qed.

Lemma replaceNonAsciiChars_ascii_unchanged_witness :
  replaceNonAsciiChars Codec.decode_7bit "123 MAIN ST" = Ok "123 MAIN ST".
Proof.
  apply (replaceNonAsciiChars_ascii_unchanged Codec.decode_7bit "123 MAIN ST").
  - unfold is_7bit. vm_compute. repeat constructor.
  - vm_compute. reflexivity.
Defined.

(** ** The fixed-width decoder as a whole *)

Lemma processTXT_loop_inv (dec : string → list N) (lines : list string) :
  ∀ acc recs,
    processTXT_loop dec lines acc = Ok recs →
    ∃ new, recs = acc ++ new
           ∧ Forall2 (λ line rec, processTXT_line dec line = Ok rec) lines new.
Proof.
  induction lines as [|line lines IH]; intros acc recs H; cbn in H.
  - injection H as <-. exists []. by rewrite app_nil_r.
  - bind_in H as rec Hrec. destruct (IH _ _ H) as (new & -> & Hnew).
    exists (rec :: new). rewrite <- app_assoc. split; [done|].
    by constructor.
Qed.

Lemma processTXT_loop_fails (dec : string → list N) (lines : list string)
    (e : exn) :
  ∀ acc,
    Forall (λ line, ∀ e', processTXT_line dec line = Err e' → e' = e) lines →
    Exists (λ line, ∃ e', processTXT_line dec line = Err e') lines →
    processTXT_loop dec lines acc = Err e.
Proof.
  induction lines as [|line lines IH]; intros acc Hall Hex.
  - by apply Exists_nil in Hex.
  - apply Forall_cons in Hall as [Hline Hall]. cbn.
    destruct (processTXT_line dec line) as [rec|e'] eqn:Hrec.
    + rewrite bind_Ok. apply IH; [done|].
      apply Exists_cons in Hex as [[e' He']|Hex]; [congruence|done].
    + rewrite bind_Err. by rewrite (Hline e' eq_refl).
Qed.

Lemma processTXT_loop_total (dec : string → list N) (lines : list string) :
  ∀ acc,
    Forall (λ line, ∃ rec, processTXT_line dec line = Ok rec) lines →
    ∃ recs, processTXT_loop dec lines acc = Ok recs.
Proof.
  induction lines as [|line lines IH]; intros acc Hall.
  - by eexists.
  - apply Forall_cons in Hall as [[rec Hrec] Hall]. cbn.
    rewrite Hrec, bind_Ok. by apply IH.
Qed.

(** X4. Whenever [processTXT] returns, it has delivered one record for each
    line of the file, in the order of the lines, and every record has the
    26 values of the canonical schema. *)
Theorem processTXT_records (dec : string → list N) (lines : list string)
    (recordsList : list (list string)) :
  processTXT dec lines = Ok recordsList →
  Forall2 (λ line rec, processTXT_line dec line = Ok rec) lines recordsList
  ∧ length recordsList = length lines
  ∧ canonical recordsList.
Proof.
  intros H. apply processTXT_loop_inv in H as (new & -> & Hnew).
  cbn [app]. split; [done|]. split.
  - symmetry. by eapply Forall2_length.
  - unfold canonical. apply Forall_forall. intros rec Hin.
    apply list_elem_of_lookup in Hin as [i Hi].
    destruct (Forall2_lookup_r _ _ _ _ _ Hnew Hi) as (line & _ & Hline).
    by apply processTXT_line_layout in Hline as (fields & _ & _ & Hlen).
Qed.

Lemma processTXT_records_witness :
  ∃ rec, processTXT Codec.decode_7bit [sample_flat_line] = Ok [rec]
         ∧ length [rec] = length [sample_flat_line]
         ∧ canonical [rec].
Proof.
  eexists. split; [vm_compute; reflexivity|].
  apply (processTXT_records Codec.decode_7bit [sample_flat_line]).
  vm_compute. reflexivity.
Defined.

(** A line of 7-bit text is decoded exactly when it has the 516 bytes of
    the layout. *)
Lemma processTXT_line_7bit (dec : string → list N) (line : string) :
  is_7bit line → dec line = codes line →
  (String.length line < 516 → processTXT_line dec line = Err StructError)
  ∧ (516 ≤ String.length line → ∃ rec, processTXT_line dec line = Ok rec).
Proof.
  intros H7 Hdec. unfold processTXT_line.
  rewrite (replaceNonAsciiChars_id dec line H7 Hdec), bind_Ok.
  unfold unpack_from.
  change (sum_list formatStr) with 516.
  split; intros Hlen.
  - by rewrite bool_decide_eq_true_2.
  - rewrite bool_decide_eq_false_2 by lia. rewrite bind_Ok. by eexists.
Qed.

(** X5. On a file of 7-bit text, [processTXT] returns exactly when every
    line has at least the 516 bytes of the layout; one shorter line, a
    blank line among them, makes it raise [struct.error] and no record at
    all is delivered. *)
Theorem processTXT_short_line (dec : string → list N) (lines : list string) :
  Forall (λ line, is_7bit line ∧ dec line = codes line) lines →
  (Exists (λ line, String.length line < 516) lines →
   processTXT dec lines = Err StructError)
  ∧ (Forall (λ line, 516 ≤ String.length line) lines →
     ∃ recordsList, processTXT dec lines = Ok recordsList).
Proof.
  intros H7. split.
  - intros Hshort. apply processTXT_loop_fails.
    + eapply Forall_impl; [exact H7|]. cbn. intros line [Hl Hd] e' He'.
      destruct (processTXT_line_7bit dec line Hl Hd) as [Hlt Hge].
      destruct (decide (String.length line < 516)) as [Hc|Hc].
      * rewrite (Hlt Hc) in He'. by injection He'.
      * destruct (Hge ltac:(lia)) as [rec Hrec]. congruence.
    + rewrite Forall_forall in H7. apply Exists_exists in Hshort as (line & Hin & Hlt).
      apply Exists_exists. exists line. split; [done|].
      destruct (H7 line Hin) as [Hl Hd].
      eexists. by apply (processTXT_line_7bit dec line Hl Hd).
  - intros Hlong. apply processTXT_loop_total.
    apply Forall_forall. intros line Hin. rewrite Forall_forall in H7, Hlong.
    destruct (H7 line Hin) as [Hl Hd].
    by apply (processTXT_line_7bit dec line Hl Hd), Hlong.
Qed.

Lemma processTXT_short_line_witness :
  processTXT Codec.decode_7bit [sample_flat_line; String Str.nl ""]
  = Err StructError.
Proof.
  apply (processTXT_short_line Codec.decode_7bit
           [sample_flat_line; String Str.nl ""]).
  - assert (is_7bit sample_flat_line) as H1
      by (unfold is_7bit; apply (bool_decide_unpack _);
          vm_compute; reflexivity).
    assert (is_7bit (String Str.nl "")) as H2
      by (unfold is_7bit; vm_compute; repeat constructor).
    repeat constructor; try done; by apply decode_7bit_codes.
  - apply Exists_cons_tl, Exists_cons_hd. vm_compute. lia.
Defined.

(** ** The field mapper and the tabular decoder as a whole *)

Lemma fields_loop_inv (data_cols : list string)
    (data_fields : list (string * Re.pattern)) :
  ∀ acc idxs,
    fields_loop data_cols data_fields acc = Ok idxs →
    ∃ new, idxs = acc ++ new
           ∧ Forall2 (λ f idx, scan_cols f.2 data_cols data_cols = Ok idx)
               data_fields new.
Proof.
  induction data_fields as [|[name pattern] dfs IH]; intros acc idxs H;
    cbn [fields_loop] in H.
  - injection H as <-. exists []. by rewrite app_nil_r.
  - bind_in H as idx Hidx. destruct (IH _ _ H) as (new & -> & Hnew).
    exists (idx :: new). rewrite <- app_assoc. split; [done|]. by constructor.
Qed.

(** One index for each canonical field, in the order of the fields. *)
Lemma getFieldsIndxs_inv (csv_hdr : list string)
    (data_fields : list (string * Re.pattern)) (idxs : list pyval) :
  getFieldsIndxs csv_hdr data_fields = Ok idxs →
  Forall2 (λ f idx, scan_cols f.2 (map Str.squeeze csv_hdr)
                      (map Str.squeeze csv_hdr) = Ok idx) data_fields idxs.
Proof.
  unfold getFieldsIndxs. cbv zeta. intros H.
  by apply fields_loop_inv in H as (new & -> & Hnew).
Qed.

(** The first column a pattern matches decides, and what is looked up is
    the text matched: when that text is the whole column, the index is the
    position of the column. *)
Lemma scan_cols_full_match (pattern : Re.pattern) (pre post : list string)
    (col : string) :
  Forall (λ c, Re.match_ pattern c = None) pre →
  Re.match_ pattern col = Some col →
  ∀ skipped,
    Forall (λ c, Re.match_ pattern c = None) skipped →
    scan_cols pattern (skipped ++ pre ++ col :: post) (pre ++ col :: post)
    = Ok (PyInt (Z.of_nat (length skipped + length pre))).
Proof.
  intros Hpre Hcol. induction Hpre as [|c pre Hc Hpre IH]; intros skipped Hsk.
  - cbn [app scan_cols]. rewrite Hcol.
    assert (py_index col (skipped ++ col :: post) = Ok (length skipped)) as ->.
    { induction Hsk as [|c skipped Hc _ IHsk]; cbn [app py_index length].
      - by rewrite String.eqb_refl.
      - destruct (String.eqb_spec c col) as [->|_]; [congruence|].
        by rewrite IHsk. }
    rewrite bind_Ok. cbn [length]. by rewrite Nat.add_0_r.
  - cbn [app scan_cols]. rewrite Hc.
    specialize (IH (skipped ++ [c])). rewrite <- app_assoc in IH. cbn [app] in IH.
    rewrite IH by (apply Forall_app; split; [done|by constructor]).
    rewrite length_app. cbn [length]. do 3 f_equal. lia.
Qed.

(** X6. When the first column that the pattern of a canonical field
    matches is matched in full, the field mapper resolves the field to the
    position of that column. *)
Theorem getFieldsIndxs_first_full_match (csv_hdr : list string)
    (data_fields : list (string * Re.pattern)) (idxs : list pyval)
    (k : nat) (name : string) (pattern : Re.pattern)
    (pre post : list string) (col : string) :
  getFieldsIndxs csv_hdr data_fields = Ok idxs →
  data_fields !! k = Some (name, pattern) →
  map Str.squeeze csv_hdr = pre ++ col :: post →
  Forall (λ c, Re.match_ pattern c = None) pre →
  Re.match_ pattern col = Some col →
  idxs !! k = Some (PyInt (Z.of_nat (length pre))).
Proof.
  intros H Hk Hcols Hpre Hcol. apply getFieldsIndxs_inv in H.
  destruct (Forall2_lookup_l _ _ _ _ _ H Hk) as (idx & Hidx & Hscan).
  cbn [snd] in Hscan. rewrite Hcols in Hscan.
  pose proof (scan_cols_full_match pattern pre post col Hpre Hcol [] (Forall_nil_2 _))
    as Hfull.
  cbn [app length] in Hfull. rewrite Hfull in Hscan. by injection Hscan as <-.
Qed.

Lemma getFieldsIndxs_first_full_match_witness :
  ∃ idxs, getFieldsIndxs sample_header create_data_fields = Ok idxs
          ∧ idxs !! escheat_idx = Some (PyInt 5).
Proof.
  eexists. split; [vm_compute; reflexivity|].
  apply (getFieldsIndxs_first_full_match sample_header create_data_fields _
           escheat_idx "Escheatment State" (field_pattern "Escheatment State")
           ["XRX Acct Seq"; "Issue Name"; "Company"; "Account"; "Name/Address1"]
           [] "Eligibility State").
  - vm_compute. reflexivity.
  - vm_compute. reflexivity.
  - vm_compute. reflexivity.
  - repeat (constructor; [vm_compute; reflexivity|]). constructor.
  - vm_compute. reflexivity.
Defined.

(** ** The cells of a data row *)

Lemma getFieldValuesFromLine_loop_length (dec : string → list N)
    (line : list string) (field_indxs : list pyval) :
  ∀ acc row,
    getFieldValuesFromLine_loop dec line field_indxs acc = Ok row →
    length row = length acc + length field_indxs
    ∧ take (length acc) row = acc.
Proof.
  induction field_indxs as [|idx idxs IH]; intros acc row H;
    cbn [getFieldValuesFromLine_loop] in H.
  - injection H as <-. cbn. split; [lia|]. by rewrite firstn_all.
  - assert (∃ v, getFieldValuesFromLine_loop dec line idxs (acc ++ [v]) = Ok row)
      as [v Hv].
    { destruct (py_eq idx (PyStr "")); [by eexists|].
      destruct idx as [z|s]; [|discriminate].
      bind_in H as cell Hcell. bind_in H as out Hout. by eexists. }
    destruct (IH _ _ Hv) as [Hlen Htake].
    rewrite length_app in Hlen, Htake. cbn [length] in *. split; [lia|].
    apply (f_equal (take (length acc))) in Htake.
    rewrite take_take, take_app_length in Htake.
    by replace (length acc `min` (length acc + 1)) with (length acc) in Htake by lia.
Qed.

Lemma getFieldValuesFromLine_loop_lookup (dec : string → list N)
    (line : list string) (field_indxs : list pyval) :
  ∀ acc row k idx,
    getFieldValuesFromLine_loop dec line field_indxs acc = Ok row →
    field_indxs !! k = Some idx →
    match idx with
    | PyStr s =>
        s = "" ∧ row !! (length acc + k) = Some ""
    | PyInt z =>
        ∃ cell out,
          py_item line z = Ok cell
          ∧ replaceNonAsciiChars dec cell = Ok out
          ∧ row !! (length acc + k) = Some (Str.squeeze out)
    end.
Proof.
  induction field_indxs as [|idx0 idxs IH]; intros acc row k idx H Hk;
    [done|].
  cbn [getFieldValuesFromLine_loop] in H.
  destruct k as [|k]; cbn in Hk.
  - injection Hk as ->. rewrite Nat.add_0_r.
    destruct idx as [z|s].
    + cbn [py_eq] in H. bind_in H as cell Hcell. bind_in H as out Hout.
      exists cell, out. do 2 (split; [done|]).
      apply getFieldValuesFromLine_loop_length in H as [_ Htake].
      rewrite length_app in Htake. cbn [length] in Htake.
      rewrite <- (lookup_take_lt row (length acc + 1)) by lia.
      rewrite Htake. by rewrite lookup_app_r, Nat.sub_diag.
    + cbn [py_eq] in H. destruct (String.eqb_spec s "") as [Heq|Hs];
        [|discriminate].
      split; [done|].
      apply getFieldValuesFromLine_loop_length in H as [_ Htake].
      rewrite length_app in Htake. cbn [length] in Htake.
      rewrite <- (lookup_take_lt row (length acc + 1)) by lia.
      rewrite Htake. by rewrite lookup_app_r, Nat.sub_diag.
  - assert (∃ v, getFieldValuesFromLine_loop dec line idxs (acc ++ [v]) = Ok row)
      as [v Hv].
    { destruct (py_eq idx0 (PyStr "")); [by eexists|].
      destruct idx0 as [z|s]; [|discriminate].
      bind_in H as cell Hcell. bind_in H as out Hout. by eexists. }
    specialize (IH _ _ k idx Hv Hk). rewrite length_app in IH. cbn [length] in IH.
    by replace (length acc + S k) with (length acc + 1 + k) by lia.
Qed.

(** X7. Whenever [getFieldValuesFromLine] returns, the row has one value
    for each index it was given: the empty string where the index is the
    not-found marker, and elsewhere the cell of the line at that index,
    sanitised and with its white space squeezed. *)
Theorem getFieldValuesFromLine_cells (dec : string → list N)
    (line : list string) (field_indxs : list pyval) (row : list string) :
  getFieldValuesFromLine dec line field_indxs = Ok row →
  length row = length field_indxs
  ∧ (∀ k, field_indxs !! k = Some (PyStr "") → row !! k = Some "")
  ∧ (∀ k z, field_indxs !! k = Some (PyInt z) →
       ∃ cell out,
         py_item line z = Ok cell
         ∧ replaceNonAsciiChars dec cell = Ok out
         ∧ row !! k = Some (Str.squeeze out)).
Proof.
  unfold getFieldValuesFromLine. intros H. split; [|split].
  - by apply getFieldValuesFromLine_loop_length in H as [Hlen _].
  - intros k Hk.
    by destruct (getFieldValuesFromLine_loop_lookup _ _ _ _ _ _ _ H Hk) as [_ Hr].
  - intros k z Hk.
    exact (getFieldValuesFromLine_loop_lookup _ _ _ _ _ _ _ H Hk).
Qed.

Lemma getFieldValuesFromLine_cells_witness :
  ∃ row,
    getFieldValuesFromLine Codec.decode_7bit ["  JOHN   DOE "; "NY"]
      [PyInt 1; PyStr ""; PyInt 0] = Ok row
    ∧ length row = 3 ∧ row !! 1 = Some "".
Proof.
  eexists. split; [vm_compute; reflexivity|].
  destruct (getFieldValuesFromLine_cells Codec.decode_7bit
              ["  JOHN   DOE "; "NY"] [PyInt 1; PyStr ""; PyInt 0]
              ["NY"; ""; "JOHN DOE"]) as (Hlen & Hblank & _).
  - vm_compute. reflexivity.
  - split; [exact Hlen|]. apply Hblank. reflexivity.
Defined.

(** ** The records of a table *)

(** What a data row becomes: the values read from it, with the state name
    in Escheatment State and, where LT is blank, the company and account
    numbers in LT. *)
Lemma processXLS_row_inv (dec : string → list N) (us_dict : gmap string string)
    (field_indxs : list pyval) (line row : list string) :
  processXLS_row dec us_dict field_indxs line = Ok row →
  ∃ dataRow abbv name lt,
    getFieldValuesFromLine dec line field_indxs = Ok dataRow
    ∧ dataRow !! escheat_idx = Some abbv
    ∧ us_dict !! abbv = Some name
    ∧ dataRow !! lt_idx = Some lt
    ∧ (lt ≠ "" → row = <[escheat_idx := name]> dataRow)
    ∧ (lt = "" →
       ∃ compNo acctNo,
         dataRow !! company_idx = Some compNo
         ∧ dataRow !! account_idx = Some acctNo
         ∧ row = <[lt_idx := compNo +:+ acctNo]> (<[escheat_idx := name]> dataRow)).
Proof.
  unfold processXLS_row. intros H.
  bind_in H as dataRow Hrow. bind_in H as abbv Habbv. bind_in H as name Hname.
  bind_in H as row1 Hset. bind_in H as lt Hlt.
  apply py_get_Ok in Habbv. apply dict_get_Ok in Hname.
  apply py_set_inv in Hset as [Hlen ->]. apply py_get_Ok in Hlt.
  rewrite list_lookup_insert_ne in Hlt by discriminate.
  exists dataRow, abbv, name, lt. do 4 (split; [done|]).
  destruct (String.eqb_spec lt "") as [Heq|Hne].
  - bind_in H as compNo Hc. bind_in H as acctNo Ha.
    apply py_get_Ok in Hc, Ha.
    rewrite list_lookup_insert_ne in Hc by discriminate.
    rewrite list_lookup_insert_ne in Ha by discriminate.
    apply py_set_inv in H as [_ ->].
    split; [done|]. intros _. by exists compNo, acctNo.
  - injection H as <-. split; [done|]. intros Heq. by destruct Hne.
Qed.

Lemma processXLS_loop_inv (dec : string → list N) (us_dict : gmap string string)
    (field_indxs : list pyval) (rows : list (list string)) :
  ∀ acc recs,
    processXLS_loop dec us_dict field_indxs rows acc = Ok recs →
    ∃ new, recs = acc ++ new
           ∧ Forall2 (λ line rec,
                        processXLS_row dec us_dict field_indxs line = Ok rec)
               rows new.
Proof.
  induction rows as [|line rows IH]; intros acc recs H;
    cbn [processXLS_loop] in H.
  - injection H as <-. exists []. by rewrite app_nil_r.
  - rewrite end_of_data_false in H. bind_in H as rec Hrec.
    destruct (IH _ _ H) as (new & -> & Hnew).
    exists (rec :: new). rewrite <- app_assoc. split; [done|]. by constructor.
Qed.

(** X8. Whenever [processXLSfromCSV] returns, it has delivered one record
    for each row after the header, in the order of the rows, and every
    record has one value for each canonical field: 26 with the fields of
    [create_data_fields]. *)
Theorem processXLSfromCSV_records (dec : string → list N)
    (table : list (list string)) (us_dict : gmap string string)
    (data_fields : list (string * Re.pattern))
    (recordsList : list (list string)) :
  processXLSfromCSV dec table us_dict data_fields = Ok recordsList →
  S (length recordsList) = length table
  ∧ Forall (λ rec, length rec = length data_fields) recordsList
  ∧ (data_fields = create_data_fields → canonical recordsList).
Proof.
  intros H. destruct table as [|csv_hdr rows]; [discriminate|].
  cbn [processXLSfromCSV] in H. bind_in H as idxs Hidxs.
  apply processXLS_loop_inv in H as (new & -> & Hnew). cbn [app].
  assert (Forall (λ rec, length rec = length data_fields) new) as Hlen.
  { apply getFieldsIndxs_inv, Forall2_length in Hidxs.
    apply Forall_forall. intros rec Hin.
    apply list_elem_of_lookup in Hin as [i Hi].
    destruct (Forall2_lookup_r _ _ _ _ _ Hnew Hi) as (line & _ & Hline).
    apply processXLS_row_inv in Hline
      as (dataRow & abbv & name & lt & Hrow & _ & _ & _ & Hne & Heq).
    apply getFieldValuesFromLine_loop_length in Hrow as [Hrow _].
    cbn [length] in Hrow. rewrite <- Hidxs in Hrow.
    destruct (decide (lt = "")) as [Hlt|Hlt].
    - destruct (Heq Hlt) as (c & a & _ & _ & ->). by rewrite !length_insert.
    - rewrite (Hne Hlt). by rewrite length_insert. }
  split; [|split].
  - cbn [length]. f_equal. symmetry. by eapply Forall2_length.
  - done.
  - intros ->. exact Hlen.
Qed.

Lemma processXLSfromCSV_records_witness :
  ∃ recordsList,
    processXLSfromCSV Codec.decode_7bit sample_table create_us_dict
      create_data_fields = Ok recordsList
    ∧ S (length recordsList) = length sample_table
    ∧ canonical recordsList.
Proof.
  eexists. split; [vm_compute; reflexivity|].
  edestruct (processXLSfromCSV_records Codec.decode_7bit sample_table
               create_us_dict create_data_fields) as (Hn & _ & Hc).
  - vm_compute. reflexivity.
  - split; [exact Hn | exact (Hc eq_refl)].
Defined.

(** X9. A table with no row at all makes [processXLSfromCSV] raise
    [StopIteration], and a table whose header row has no column makes it
    raise [UnboundLocalError], whatever rows follow. *)
Theorem processXLSfromCSV_no_header (dec : string → list N)
    (us_dict : gmap string string) (data_fields : list (string * Re.pattern))
    (rows : list (list string)) :
  data_fields ≠ [] →
  processXLSfromCSV dec [] us_dict data_fields = Err StopIteration
  ∧ processXLSfromCSV dec ([] :: rows) us_dict data_fields
    = Err UnboundLocalError.
Proof.
  intros Hne. split; [done|].
  destruct data_fields as [|[name pattern] dfs]; [done|]. reflexivity.
Qed.

Lemma processXLSfromCSV_no_header_witness :
  processXLSfromCSV Codec.decode_7bit [] create_us_dict create_data_fields
  = Err StopIteration
  ∧ processXLSfromCSV Codec.decode_7bit [[]; sample_row_known] create_us_dict
      create_data_fields
    = Err UnboundLocalError.
Proof.
  apply (processXLSfromCSV_no_header Codec.decode_7bit create_us_dict
           create_data_fields [sample_row_known]).
  vm_compute. discriminate.
Defined.

(** X10. In a record that the tabular decoder delivers, LT is the LT read
    from the row when that is not empty, and the company number followed by
    the account number when it is; every field but LT and Escheatment State
    is as it was read. *)
Theorem processXLS_row_lt (dec : string → list N) (us_dict : gmap string string)
    (field_indxs : list pyval) (line row : list string) :
  processXLS_row dec us_dict field_indxs line = Ok row →
  ∃ dataRow lt compNo acctNo,
    getFieldValuesFromLine dec line field_indxs = Ok dataRow
    ∧ dataRow !! lt_idx = Some lt
    ∧ dataRow !! company_idx = Some compNo
    ∧ dataRow !! account_idx = Some acctNo
    ∧ row !! lt_idx = Some (if String.eqb lt "" then compNo +:+ acctNo else lt)
    ∧ (∀ j, j ≠ lt_idx → j ≠ escheat_idx → row !! j = dataRow !! j).
Proof.
  intros H. apply processXLS_row_inv in H
    as (dataRow & abbv & name & lt & Hrow & Habbv & _ & Hlt & Hne & Heq).
  pose proof (lookup_lt_Some _ _ _ Habbv) as Hlen. unfold escheat_idx in Hlen.
  destruct (lookup_lt_is_Some_2 dataRow company_idx) as [compNo Hc];
    [unfold company_idx; lia|].
  destruct (lookup_lt_is_Some_2 dataRow account_idx) as [acctNo Ha];
    [unfold account_idx; lia|].
  exists dataRow, lt, compNo, acctNo. do 4 (split; [done|]).
  destruct (String.eqb_spec lt "") as [Hlt0|Hlt0].
  - destruct (Heq Hlt0) as (c & a & Hc' & Ha' & ->).
    rewrite Hc in Hc'. rewrite Ha in Ha'. injection Hc' as <-. injection Ha' as <-.
    split.
    + apply list_lookup_insert_eq. rewrite length_insert. unfold lt_idx. lia.
    + intros j Hj1 Hj2. by rewrite !list_lookup_insert_ne.
  - rewrite (Hne Hlt0). split.
    + by rewrite list_lookup_insert_ne.
    + intros j Hj1 Hj2. by rewrite list_lookup_insert_ne.
Qed.

Lemma processXLS_row_lt_witness :
  ∃ idxs row,
    getFieldsIndxs sample_header create_data_fields = Ok idxs
    ∧ processXLS_row Codec.decode_7bit create_us_dict idxs
        [""; "ACME CORP"; "4711"; "1000200"; "JOHN DOE"; "NY"] = Ok row
    ∧ row !! lt_idx = Some "47111000200".
Proof.
  let v := eval vm_compute in (getFieldsIndxs sample_header create_data_fields) in
  match v with
  | Ok ?idxs =>
      exists idxs;
      let r := eval vm_compute in
        (processXLS_row Codec.decode_7bit create_us_dict idxs
           [""; "ACME CORP"; "4711"; "1000200"; "JOHN DOE"; "NY"]) in
      match r with
      | Ok ?row =>
          exists row;
          (split; [vm_compute; reflexivity|]);
          (split; [vm_compute; reflexivity|]);
          destruct (processXLS_row_lt Codec.decode_7bit create_us_dict idxs
                      [""; "ACME CORP"; "4711"; "1000200"; "JOHN DOE"; "NY"] row)
            as (dataRow & lt & compNo & acctNo & Hrow & Hlt & Hc & Ha & Hres & _);
          [vm_compute; reflexivity|]
      end
  end.
  vm_compute in Hrow. injection Hrow as <-.
  vm_compute in Hlt, Hc, Ha. injection Hlt as <-. injection Hc as <-.
  injection Ha as <-. exact Hres.
Defined.

(** ** What the classifier writes *)

(** One turn of the loop of [createRecordsDict]: it touches one record, and
    there only LetterCode, Zip and AddressType. *)
Lemma createRecordsDict_loop_cons (letterCode : string) (a : nat)
    (refs : list nat) (st : store) (fd : list nat) (d : records_dict)
    (res : store * list nat * records_dict) :
  createRecordsDict_loop letterCode (a :: refs) st fd d = Ok res →
  ∃ st_a,
    length st_a = length st
    ∧ (∀ r j, r ≠ a ∨ (j ≠ lettercode_idx ∧ j ≠ zip_idx ∧ j ≠ addrtype_idx) →
              field st_a r j = field st r j)
    ∧ field st_a a lettercode_idx = Some letterCode
    ∧ ((foreign_state st a
        ∧ field st_a a zip_idx = Some ""
        ∧ field st_a a addrtype_idx = field st a addrtype_idx
        ∧ createRecordsDict_loop letterCode refs st_a (fd ++ [a]) d = Ok res)
       ∨ (¬ foreign_state st a
          ∧ field st_a a addrtype_idx = Some "DOM"
          ∧ (∃ zip, field st a zip_idx = Some zip
                    ∧ field st_a a zip_idx = Some (normalizeZip zip))
          ∧ createRecordsDict_loop letterCode refs st_a fd
              (RecordsDict (MEX d) (CAN d) (FGN d) (DOM d ++ [a])) = Ok res)).
Proof.
  cbn [createRecordsDict_loop]. intros H.
  bind_in H as st1 H1. bind_in H as state Hstate.
  apply get_field_Ok in Hstate.
  assert (field st a state_idx = Some state) as Hstate0.
  { rewrite <- Hstate. symmetry. apply (set_field_ne _ _ _ _ _ _ _ H1).
    right. discriminate. }
  destruct (String.eqb_spec state "FO") as [Heq|Hne].
  - bind_in H as st2 H2. exists st2. split; [|split; [|split]].
    + rewrite (set_field_length _ _ _ _ _ H2). apply (set_field_length _ _ _ _ _ H1).
    + intros r j Hrj.
      rewrite (set_field_ne _ _ _ _ _ r j H2) by (destruct Hrj as [?|(?&?&?)]; auto).
      apply (set_field_ne _ _ _ _ _ r j H1). destruct Hrj as [?|(?&?&?)]; auto.
    + rewrite (set_field_ne _ _ _ _ _ a lettercode_idx H2) by (right; discriminate).
      apply (set_field_eq _ _ _ _ _ H1).
    + left. split; [by subst|]. split; [apply (set_field_eq _ _ _ _ _ H2)|].
      split; [|done].
      rewrite (set_field_ne _ _ _ _ _ a addrtype_idx H2) by (right; discriminate).
      apply (set_field_ne _ _ _ _ _ a addrtype_idx H1). right. discriminate.
  - bind_in H as zip Hzip. cbv zeta in H. apply get_field_Ok in Hzip.
    bind_in H as st2 H2. bind_in H as st3 H3.
    exists st3. split; [|split; [|split]].
    + rewrite (set_field_length _ _ _ _ _ H3), (set_field_length _ _ _ _ _ H2).
      apply (set_field_length _ _ _ _ _ H1).
    + intros r j Hrj.
      rewrite (set_field_ne _ _ _ _ _ r j H3) by (destruct Hrj as [?|(?&?&?)]; auto).
      rewrite (set_field_ne _ _ _ _ _ r j H2) by (destruct Hrj as [?|(?&?&?)]; auto).
      apply (set_field_ne _ _ _ _ _ r j H1). destruct Hrj as [?|(?&?&?)]; auto.
    + rewrite (set_field_ne _ _ _ _ _ a lettercode_idx H3) by (right; discriminate).
      rewrite (set_field_ne _ _ _ _ _ a lettercode_idx H2) by (right; discriminate).
      apply (set_field_eq _ _ _ _ _ H1).
    + right. split; [|split; [|split]].
      * unfold foreign_state. rewrite Hstate0. congruence.
      * apply (set_field_eq _ _ _ _ _ H3).
      * exists zip. split.
        -- rewrite <- Hzip. symmetry.
           apply (set_field_ne _ _ _ _ _ a zip_idx H1). right. discriminate.
        -- rewrite (set_field_ne _ _ _ _ _ a zip_idx H3) by (right; discriminate).
           apply (set_field_eq _ _ _ _ _ H2).
      * done.
Qed.

(** The loop as a whole, whenever it completes. *)
Lemma createRecordsDict_loop_fields (letterCode : string) (refs : list nat) :
  ∀ (st st' : store) (fd fd' : list nat) (d d' : records_dict),
    createRecordsDict_loop letterCode refs st fd d = Ok (st', fd', d') →
    length st' = length st
    ∧ fd' = fd ++ filter (foreign_state st) refs
    ∧ DOM d' = DOM d ++ filter (λ r, ¬ foreign_state st r) refs
    ∧ (∀ r j, j ≠ lettercode_idx → j ≠ zip_idx → j ≠ addrtype_idx →
              field st' r j = field st r j)
    ∧ (∀ r, r ∉ refs → ∀ j, field st' r j = field st r j)
    ∧ (∀ r, r ∈ refs → field st' r lettercode_idx = Some letterCode)
    ∧ (NoDup refs → ∀ r, r ∈ refs →
         (foreign_state st r →
            field st' r addrtype_idx = field st r addrtype_idx)
         ∧ (¬ foreign_state st r →
              field st' r addrtype_idx = Some "DOM"
              ∧ ∃ zip, field st r zip_idx = Some zip
                       ∧ field st' r zip_idx = Some (normalizeZip zip))).
Proof.
  induction refs as [|a refs IH]; intros st st' fd fd' d d' H.
  - cbn in H. injection H as <- <- <-. rewrite !filter_nil, !app_nil_r.
    repeat split; try done; intros; exfalso; by eapply not_elem_of_nil.
  - apply createRecordsDict_loop_cons in H
      as (st_a & Hlen & Hframe & Hlc & Hcase).
    assert (∀ r, foreign_state st_a r ↔ foreign_state st r) as Hfs.
    { intros r. unfold foreign_state. rewrite Hframe; [done|].
      right. repeat split; discriminate. }
    assert (filter (foreign_state st_a) refs = filter (foreign_state st) refs)
      as Hff by (by apply list_filter_iff).
    assert (filter (λ r, ¬ foreign_state st_a r) refs
            = filter (λ r, ¬ foreign_state st r) refs) as Hfn.
    { apply list_filter_iff. intros r. by rewrite Hfs. }
    destruct Hcase as [(Hfo & Hzip & Hat & Hrun)|(Hnf & Hat & Hzip & Hrun)];
      destruct (IH _ _ _ _ _ _ Hrun) as (Hl & Hfd & Hdom & Hfr & Hout & Hin & Hnd);
      cbn [DOM] in Hdom; rewrite Hff in Hfd; rewrite Hfn in Hdom.
    + (* marked foreign *)
      rewrite (filter_cons_True (foreign_state st)) by done.
      rewrite (filter_cons_False (λ r, ¬ foreign_state st r)) by (intros Hn; by apply Hn).
      split; [lia|]. split; [by rewrite Hfd, <- app_assoc|]. split; [done|].
      split; [|split; [|split]].
      * intros r j Hj1 Hj2 Hj3. rewrite Hfr by done. apply Hframe. by right.
      * intros r Hr j. apply not_elem_of_cons in Hr as [Hra Hr].
        rewrite Hout by done. apply Hframe. by left.
      * intros r Hr. destruct (decide (r ∈ refs)) as [Hrr|Hrr]; [by apply Hin|].
        apply elem_of_cons in Hr as [->|Hr]; [|done]. by rewrite Hout.
      * intros Hnodup r Hr. apply NoDup_cons in Hnodup as [Ha Hnodup].
        apply elem_of_cons in Hr as [->|Hr].
        -- split; [|done]. intros _. by rewrite Hout.
        -- assert (r ≠ a) as Hra by (intros ->; done).
           destruct (Hnd Hnodup r Hr) as [Hf1 Hf2]. split.
           ++ intros Hf. rewrite Hf1 by (by apply Hfs). apply Hframe. by left.
           ++ intros Hf. destruct Hf2 as (Hd' & zip & Hz1 & Hz2);
                [by rewrite Hfs|].
              split; [done|]. exists zip. split; [|done].
              rewrite <- Hz1. symmetry. apply Hframe. by left.
    + (* domestic *)
      rewrite (filter_cons_False (foreign_state st)) by done.
      rewrite (filter_cons_True (λ r, ¬ foreign_state st r)) by done.
      split; [lia|]. split; [done|]. split; [by rewrite Hdom, <- app_assoc|].
      split; [|split; [|split]].
      * intros r j Hj1 Hj2 Hj3. rewrite Hfr by done. apply Hframe. by right.
      * intros r Hr j. apply not_elem_of_cons in Hr as [Hra Hr].
        rewrite Hout by done. apply Hframe. by left.
      * intros r Hr. destruct (decide (r ∈ refs)) as [Hrr|Hrr]; [by apply Hin|].
        apply elem_of_cons in Hr as [->|Hr]; [|done]. by rewrite Hout.
      * intros Hnodup r Hr. apply NoDup_cons in Hnodup as [Ha Hnodup].
        apply elem_of_cons in Hr as [->|Hr].
        -- split; [done|]. intros _. rewrite !Hout by done.
           split; [done|]. destruct Hzip as (zip & Hz1 & Hz2). by exists zip.
        -- assert (r ≠ a) as Hra by (intros ->; done).
           destruct (Hnd Hnodup r Hr) as [Hf1 Hf2]. split.
           ++ intros Hf. rewrite Hf1 by (by apply Hfs). apply Hframe. by left.
           ++ intros Hf. destruct Hf2 as (Hd' & zip & Hz1 & Hz2);
                [by rewrite Hfs|].
              split; [done|]. exists zip. split; [|done].
              rewrite <- Hz1. symmetry. apply Hframe. by left.
Qed.

(** One turn of the loop of [sortForeignByCountry] appends the record to the
    list that its AddressType names. *)
Lemma destination_tag (d : records_dict) (record : nat) (city last : string) :
  DOM (destination d record city last).2 = DOM d
  ∧ (((destination d record city last).1 = "CAN"
      ∧ CAN (destination d record city last).2 = CAN d ++ [record]
      ∧ MEX (destination d record city last).2 = MEX d
      ∧ FGN (destination d record city last).2 = FGN d)
     ∨ ((destination d record city last).1 = "MEX"
        ∧ CAN (destination d record city last).2 = CAN d
        ∧ MEX (destination d record city last).2 = MEX d ++ [record]
        ∧ FGN (destination d record city last).2 = FGN d)
     ∨ ((destination d record city last).1 = "FGN"
        ∧ CAN (destination d record city last).2 = CAN d
        ∧ MEX (destination d record city last).2 = MEX d
        ∧ FGN (destination d record city last).2 = FGN d ++ [record])).
Proof.
  unfold destination.
  destruct (is_canada city last); [|destruct (is_mexico city)];
    cbn [fst snd MEX CAN FGN DOM]; (split; [done|]); auto 10.
Qed.

(** Whenever the loop completes: each foreign list has grown by records of
    the input, in the order of the input; a record not in the input is
    untouched; and a record of the input carries the name of the list it
    was appended to. *)
Lemma sortForeign_loop_tags (l : list nat) :
  ∀ (st st' : store) (d d' : records_dict),
    sortForeign_loop l st d = Ok (st', d') →
    (∃ c m f,
       CAN d' = CAN d ++ c ∧ MEX d' = MEX d ++ m ∧ FGN d' = FGN d ++ f
       ∧ sublist c l ∧ sublist m l ∧ sublist f l)
    ∧ (∀ r, r ∉ l → ∀ j, field st' r j = field st r j)
    ∧ (NoDup l → ∀ r, r ∈ l →
         (field st' r addrtype_idx = Some "CAN" ∧ r ∈ CAN d')
         ∨ (field st' r addrtype_idx = Some "MEX" ∧ r ∈ MEX d')
         ∨ (field st' r addrtype_idx = Some "FGN" ∧ r ∈ FGN d')).
Proof.
  induction l as [|record l IH]; intros st st' d d' H.
  - cbn in H. injection H as <- <-. split; [|split].
    + exists [], [], []. by rewrite !app_nil_r.
    + done.
    + intros _ r Hr. by apply elem_of_nil in Hr.
  - rewrite sortForeign_loop_cons in H.
    bind_in H as row Hrow. bind_in H as last Hlast. bind_in H as city Hcity.
    bind_in H as st1 Hset.
    destruct (IH _ _ _ _ H) as ((c & m & f & Hc & Hm & Hf & Hsc & Hsm & Hsf)
                                & Hout & Htags).
    destruct (destination_tag d record city last) as [_ Hdest].
    set (tag := (destination d record city last).1) in *.
    set (d1 := (destination d record city last).2) in *.
    assert (field st1 record addrtype_idx = Some tag) as Htag
      by apply (set_field_eq _ _ _ _ _ Hset).
    split; [|split].
    + destruct Hdest as [(_ & Hc1 & Hm1 & Hf1)|[(_ & Hc1 & Hm1 & Hf1)
                                               |(_ & Hc1 & Hm1 & Hf1)]];
        rewrite Hc1 in Hc; rewrite Hm1 in Hm; rewrite Hf1 in Hf.
      * rewrite <- app_assoc in Hc.
        exists (record :: c), m, f. do 3 (split; [done|]).
        split; [by apply sublist_skip|]. split; by apply sublist_cons.
      * rewrite <- app_assoc in Hm.
        exists c, (record :: m), f. do 3 (split; [done|]).
        split; [by apply sublist_cons|].
        split; [by apply sublist_skip | by apply sublist_cons].
      * rewrite <- app_assoc in Hf.
        exists c, m, (record :: f). do 3 (split; [done|]).
        split; [by apply sublist_cons|].
        split; [by apply sublist_cons | by apply sublist_skip].
    + intros r Hr j. apply not_elem_of_cons in Hr as [Hne Hr].
      rewrite Hout by done. apply (set_field_ne _ _ _ _ _ r j Hset). by left.
    + intros Hnd r Hr. apply NoDup_cons in Hnd as [Hnotin Hnd].
      apply elem_of_cons in Hr as [->|Hr]; [|by apply Htags].
      rewrite Hout by done. rewrite Htag.
      destruct Hdest as [(-> & Hc1 & _)|[(-> & _ & Hm1 & _)|(-> & _ & _ & Hf1)]].
      * left. split; [done|]. rewrite Hc, Hc1. apply elem_of_app. left. apply elem_of_app. right. constructor.
      * right. left. split; [done|]. rewrite Hm, Hm1. apply elem_of_app. left. apply elem_of_app. right. constructor.
      * right. right. split; [done|]. rewrite Hf, Hf1. apply elem_of_app. left. apply elem_of_app. right. constructor.
Qed.

(** The two phases of the classifier put together. *)
Lemma createRecordsDict_inv (recordsList : list (list string))
    (letterCode : string) (st : store) (d : records_dict) :
  createRecordsDict recordsList letterCode = Ok (st, d) →
  ∃ st1 fd d1 sorted,
    createRecordsDict_loop letterCode (seq 0 (length recordsList)) recordsList []
      (RecordsDict [] [] [] []) = Ok (st1, fd, d1)
    ∧ fd = filter (foreign_state recordsList) (seq 0 (length recordsList))
    ∧ DOM d1 = filter (λ r, ¬ foreign_state recordsList r)
                 (seq 0 (length recordsList))
    ∧ MEX d1 = [] ∧ CAN d1 = [] ∧ FGN d1 = []
    ∧ sorted ≡ₚ fd
    ∧ sortForeign_loop sorted st1 d1 = Ok (st, d).
Proof.
  unfold createRecordsDict, createRecordsDict_in. intros H.
  bind_in H as res Hloop. destruct res as [[st1 fd] d1].
  unfold sortForeignByCountry in H. bind_in H as keyed Hkeys. cbv zeta in H.
  exists st1, fd, d1, (map snd (sort_by_key keyed)).
  split; [done|].
  destruct (createRecordsDict_loop_fields _ _ _ _ _ _ _ _ Hloop)
    as (_ & Hfd & Hdom & _).
  destruct (createRecordsDict_loop_inv _ _ _ _ _ _ _ _ Hloop)
    as (Hm & Hc & Hf & _).
  cbn [app MEX CAN FGN DOM] in *.
  do 5 (split; [done|]). split; [|done].
  exact (sorted_foreign_perm _ _ _ Hkeys).
Qed.

Lemma sortForeign_loop_length (l : list nat) :
  ∀ (st st' : store) (d d' : records_dict),
    sortForeign_loop l st d = Ok (st', d') → length st' = length st.
Proof.
  induction l as [|record l IH]; intros st st' d d' H.
  - cbn in H. by injection H as <- <-.
  - rewrite sortForeign_loop_cons in H.
    bind_in H as row Hrow. bind_in H as last Hlast. bind_in H as city Hcity.
    bind_in H as st1 Hset. rewrite (IH _ _ _ _ H).
    apply (set_field_length _ _ _ _ _ Hset).
Qed.

(** X11. The classifier keeps the records in place and writes nothing but
    LetterCode, Zip and AddressType: every other field of every record is
    after it what it was before. *)
Theorem createRecordsDict_frame (recordsList : list (list string))
    (letterCode : string) (st : store) (d : records_dict) :
  createRecordsDict recordsList letterCode = Ok (st, d) →
  length st = length recordsList
  ∧ (∀ r j, j ≠ lettercode_idx → j ≠ zip_idx → j ≠ addrtype_idx →
            field st r j = field recordsList r j).
Proof.
  intros H. apply createRecordsDict_inv in H
    as (st1 & fd & d1 & sorted & Hloop & _ & _ & _ & _ & _ & _ & Hsort).
  destruct (createRecordsDict_loop_fields _ _ _ _ _ _ _ _ Hloop)
    as (Hlen & _ & _ & Hframe & _).
  split.
  - rewrite <- Hlen. by eapply sortForeign_loop_length.
  - intros r j Hj1 Hj2 Hj3.
    destruct (sortForeign_loop_inv _ _ _ _ _ Hsort) as (_ & _ & Hframe2).
    rewrite Hframe2 by done. by apply Hframe.
Qed.

Lemma createRecordsDict_frame_witness :
  ∃ st d, createRecordsDict sample_batch "A1" = Ok (st, d)
    ∧ length st = 3
    ∧ field st 1 city_idx = field sample_batch 1 city_idx.
Proof.
  eexists _, _. split; [vm_compute; reflexivity|].
  edestruct (createRecordsDict_frame sample_batch "A1") as [Hlen Hframe].
  - vm_compute. reflexivity.
  - split; [exact Hlen|]. apply Hframe; discriminate.
Defined.

(** X12. After the classifier, every record of the batch carries the
    letter code that was chosen. *)
Theorem createRecordsDict_letter_code (recordsList : list (list string))
    (letterCode : string) (st : store) (d : records_dict) (r : nat) :
  createRecordsDict recordsList letterCode = Ok (st, d) →
  r < length recordsList →
  field st r lettercode_idx = Some letterCode.
Proof.
  intros H Hr. apply createRecordsDict_inv in H
    as (st1 & fd & d1 & sorted & Hloop & _ & _ & _ & _ & _ & _ & Hsort).
  destruct (createRecordsDict_loop_fields _ _ _ _ _ _ _ _ Hloop)
    as (_ & _ & _ & _ & _ & Hin & _).
  destruct (sortForeign_loop_inv _ _ _ _ _ Hsort) as (_ & _ & Hframe2).
  rewrite Hframe2 by discriminate. apply Hin. apply elem_of_seq. lia.
Qed.

Lemma createRecordsDict_letter_code_witness :
  ∃ st d, createRecordsDict sample_batch "RC" = Ok (st, d)
    ∧ field st 2 lettercode_idx = Some "RC".
Proof.
  eexists _, _. split; [vm_compute; reflexivity|].
  eapply (createRecordsDict_letter_code sample_batch "RC").
  - vm_compute. reflexivity.
  - vm_compute. lia.
Defined.

(** X13. After the classifier, the AddressType of a record names the list
    the record is in: DOM, CAN, MEX or FGN. *)
Theorem createRecordsDict_address_type (recordsList : list (list string))
    (letterCode : string) (st : store) (d : records_dict) (r : nat) :
  createRecordsDict recordsList letterCode = Ok (st, d) →
  (r ∈ DOM d → field st r addrtype_idx = Some "DOM")
  ∧ (r ∈ CAN d → field st r addrtype_idx = Some "CAN")
  ∧ (r ∈ MEX d → field st r addrtype_idx = Some "MEX")
  ∧ (r ∈ FGN d → field st r addrtype_idx = Some "FGN").
Proof.
  intros H.
  assert (NoDup (DOM d ++ CAN d ++ MEX d ++ FGN d)) as Hnd.
  { apply createRecordsDict_in_inv in H. rewrite H. apply NoDup_seq. }
  apply createRecordsDict_inv in H
    as (st1 & fd & d1 & sorted & Hloop & Hfd & Hdom & Hm & Hc & Hf & Hperm & Hsort).
  destruct (createRecordsDict_loop_fields _ _ _ _ _ _ _ _ Hloop)
    as (_ & _ & _ & _ & _ & _ & Hdomestic).
  specialize (Hdomestic (NoDup_seq _ _)).
  destruct (sortForeign_loop_tags _ _ _ _ _ Hsort)
    as ((c & m & f & Hc' & Hm' & Hf' & Hsc & Hsm & Hsf) & Hout & Htags).
  destruct (sortForeign_loop_inv _ _ _ _ _ Hsort) as (Hdom' & _ & _).
  rewrite Hc in Hc'. rewrite Hm in Hm'. rewrite Hf in Hf'. cbn [app] in *.
  assert (NoDup sorted) as Hnds by (rewrite Hperm, Hfd; apply NoDup_filter, NoDup_seq).
  specialize (Htags Hnds).
  apply NoDup_app in Hnd as (_ & Hd_other & Hnd).
  apply NoDup_app in Hnd as (_ & Hc_other & Hnd).
  apply NoDup_app in Hnd as (_ & Hm_other & _).
  split; [|split; [|split]].
  - intros Hr. rewrite Hdom', Hdom in Hr.
    apply list_elem_of_filter in Hr as [Hnf Hr].
    rewrite Hout.
    + by apply (Hdomestic r Hr).
    + rewrite Hperm, Hfd. intros Hin. by apply list_elem_of_filter in Hin as [? _].
  - intros Hr. assert (r ∈ sorted) as Hin
      by (rewrite Hc' in Hr; by eapply elem_of_sublist).
    destruct (Htags r Hin) as [[Ht _]|[[_ Hx]|[_ Hx]]]; [done| |];
      exfalso; apply (Hc_other r Hr); apply elem_of_app; auto.
  - intros Hr. assert (r ∈ sorted) as Hin
      by (rewrite Hm' in Hr; by eapply elem_of_sublist).
    destruct (Htags r Hin) as [[_ Hx]|[[Ht _]|[_ Hx]]]; [|done|].
    + exfalso. apply (Hc_other r Hx). apply elem_of_app. auto.
    + exfalso. by apply (Hm_other r Hr).
  - intros Hr. assert (r ∈ sorted) as Hin
      by (rewrite Hf' in Hr; by eapply elem_of_sublist).
    destruct (Htags r Hin) as [[_ Hx]|[[_ Hx]|[Ht _]]]; [| |done].
    + exfalso. apply (Hc_other r Hx). apply elem_of_app. auto.
    + exfalso. by apply (Hm_other r Hx).
Qed.

Lemma createRecordsDict_address_type_witness :
  ∃ st d, createRecordsDict sample_batch "A1" = Ok (st, d)
    ∧ field st 1 addrtype_idx = Some "CAN".
Proof.
  eexists _, _. split; [vm_compute; reflexivity|].
  edestruct (createRecordsDict_address_type sample_batch "A1") as (_ & Hcan & _).
  - vm_compute. reflexivity.
  - apply Hcan. vm_compute. constructor.
Defined.

(** X14. The DOM list holds the records whose Mailing State is not FO, in
    the order of the input, and the Zip of each of them is the normalised
    Zip of the input. *)
Theorem createRecordsDict_domestic (recordsList : list (list string))
    (letterCode : string) (st : store) (d : records_dict) :
  createRecordsDict recordsList letterCode = Ok (st, d) →
  DOM d = filter (λ r, ¬ foreign_state recordsList r)
            (seq 0 (length recordsList))
  ∧ (∀ r, r ∈ DOM d →
       ∃ zip, field recordsList r zip_idx = Some zip
              ∧ field st r zip_idx = Some (normalizeZip zip)).
Proof.
  intros H. apply createRecordsDict_inv in H
    as (st1 & fd & d1 & sorted & Hloop & Hfd & Hdom & _ & _ & _ & Hperm & Hsort).
  destruct (createRecordsDict_loop_fields _ _ _ _ _ _ _ _ Hloop)
    as (_ & _ & _ & _ & _ & _ & Hdomestic).
  specialize (Hdomestic (NoDup_seq _ _)).
  destruct (sortForeign_loop_inv _ _ _ _ _ Hsort) as (Hdom' & _ & Hframe2).
  rewrite Hdom', Hdom. split; [done|].
  intros r Hr. apply list_elem_of_filter in Hr as [Hnf Hr].
  destruct (Hdomestic r Hr) as [_ Hd]. destruct (Hd Hnf) as (_ & zip & Hz1 & Hz2).
  exists zip. split; [done|]. by rewrite Hframe2 by discriminate.
Qed.

Lemma createRecordsDict_domestic_witness :
  ∃ st d, createRecordsDict sample_batch "A1" = Ok (st, d)
    ∧ DOM d = [0]
    ∧ field st 0 zip_idx = Some "75201-1234".
Proof.
  eexists _, _. split; [vm_compute; reflexivity|].
  edestruct (createRecordsDict_domestic sample_batch "A1") as [Hdom Hzip].
  - vm_compute. reflexivity.
  - split; [vm_compute; reflexivity|].
    destruct (Hzip 0) as (zip & Hz1 & Hz2); [vm_compute; constructor|].
    vm_compute in Hz1. injection Hz1 as <-. exact Hz2.
Defined.
